(** * airsim_track_control: the control mapper and the command gate

    A shallow embedding of [airsim_track_control.py]: the pure mapping
    [coordinates_to_controls], the stateful hysteresis filter [send_controls]
    and the body of the sampling loop of [main].

    The script computes with Python numbers: [int] literals and the [float]
    coordinates handed over by the vision library.  The functions are written
    once over the interface [Number] (the arithmetic and comparisons the
    script uses) and run at two instances:
    - [Q], exact rational arithmetic, the "real numbers" of the specification;
    - [spec_float] at precision 53 and maximal exponent 1024, that is IEEE 754
      binary64, the representation of a Python [float]. *)

From Stdlib Require Import ZArith QArith Qabs List Bool Lia Lqa SpecFloat Ascii.
Import ListNotations.

Set Implicit Arguments.

(** ** Python numbers *)

Declare Scope num_scope.
Delimit Scope num_scope with num.

(** The operations of the script on numbers.  [of_int z] is the literal [z]
    (or the value of an [int] once it meets a [float]); [of_decimal n d] is the
    decimal literal whose value is [n/d], as in [0.1].  The script divides by
    the nonzero constants [DIM_X], [DIM_Y] and [2] only, so [div] need not say
    what Python does on a zero divisor. *)
Class Number (A : Type) : Type := {
  of_int : Z -> A;
  of_decimal : Z -> positive -> A;
  neg : A -> A;
  sub : A -> A -> A;
  mul : A -> A -> A;
  div : A -> A -> A;
  abs : A -> A;
  lt : A -> A -> bool;
  (** value equality, what Python's [==] decides on numbers *)
  num_eq : A -> A -> Prop
}.

(** [a > b] is [b < a]. *)
Definition gt {A} `{Number A} (a b : A) : bool := lt b a.

Notation "- x" := (neg x) : num_scope.
Infix "-" := sub : num_scope.
Infix "*" := mul : num_scope.
Infix "/" := div : num_scope.
Infix "<?" := lt : num_scope.
Infix ">?" := gt : num_scope.

(** The one law the strictness of [send_controls] rests on: a number is not
    greater than a number of the same value. *)
Class NumberLaws (A : Type) `{Number A} : Prop := {
  gt_strict : forall x y : A, num_eq x y -> gt x y = false
}.
Arguments NumberLaws A {_}.

(** *** Exact rationals *)

Definition Qltb (x y : Q) : bool := negb (Qle_bool y x).

#[export] Instance Number_Q : Number Q := {|
  of_int := inject_Z;
  of_decimal := Qmake;
  neg := Qopp;
  sub := Qminus;
  mul := Qmult;
  div := Qdiv;
  abs := Qabs;
  lt := Qltb;
  num_eq := Qeq
|}.

(** *** IEEE 754 binary64 *)

Module Binary64.
Definition prec : Z := 53.
Definition emax : Z := 1024.

Definition of_Z (z : Z) : spec_float := binary_normalize prec emax z 0 false.

(** A decimal literal is read as the double nearest to its value; for the
    short literals of the script that is the correctly rounded quotient of
    two small integers. *)
Definition of_ratio (n : Z) (d : positive) : spec_float :=
  SFdiv prec emax (of_Z n) (of_Z (Zpos d)).

Definition eq (x y : spec_float) : Prop := SFeqb x y = true.
End Binary64.

#[export] Instance Number_binary64 : Number spec_float := {|
  of_int := Binary64.of_Z;
  of_decimal := Binary64.of_ratio;
  neg := SFopp;
  sub := SFsub Binary64.prec Binary64.emax;
  mul := SFmul Binary64.prec Binary64.emax;
  div := SFdiv Binary64.prec Binary64.emax;
  abs := SFabs;
  lt := SFltb;
  num_eq := Binary64.eq
|}.

(** ** Module constants *)

Section Program.

Context {A : Type} `{Number A}.

Local Open Scope num_scope.

(** Dimensions of the webcam capture screen (in pixels) *)
Definition DIM_X : A := of_int 640.
Definition DIM_Y : A := of_int 480.

(** Smallest size of the tracked object (in pixels) *)
Definition THRESHOLD_CONTOUR : A := of_int 10.

(** FORWARD_RATIO tells how many times forward is faster than backwards *)
Definition FORWARD_RATIO : A := of_int 2.

(** Needed difference in throttle or steering to update the controls *)
Definition CONTROL_THROTTLE_THRESHOLD : A := of_decimal 1 10.
Definition CONTROL_STEERING_THRESHOLD : A := of_decimal 1 10.

(** ** The control mapper *)

Definition coordinates_to_controls (coordinate_x coordinate_y : A) : A * A :=
  let throttle := - (coordinate_y - (DIM_Y / of_int 2)) / DIM_Y in
  let steering := - (coordinate_x - (DIM_X / of_int 2)) / DIM_X in
  let throttle :=
    if throttle >? of_int 0 then FORWARD_RATIO * throttle else throttle in
  (throttle, steering).

End Program.

(** ** Objects of the script *)

(** [airsim.CarControls]: the attributes the script assigns. *)
Module CarControls.
Record t (A : Type) : Type := make {
  throttle : A;
  steering : A;
  is_manual_gear : bool;
  manual_gear : Z
}.

Definition set_throttle {A} (v : A) (c : t A) : t A :=
  make v (steering c) (is_manual_gear c) (manual_gear c).
Definition set_steering {A} (v : A) (c : t A) : t A :=
  make (throttle c) v (is_manual_gear c) (manual_gear c).
Definition set_is_manual_gear {A} (v : bool) (c : t A) : t A :=
  make (throttle c) (steering c) v (manual_gear c).
Definition set_manual_gear {A} (v : Z) (c : t A) : t A :=
  make (throttle c) (steering c) (is_manual_gear c) v.
End CarControls.

(** The dictionary [status_controls], the last controls sent.  [main] creates
    it with the keys ['throttle'] and ['steering'] and nothing ever removes a
    key, so it is a record of the two entries and a lookup cannot fail. *)
Module StatusControls.
Record t (A : Type) : Type := make {
  throttle : A;
  steering : A
}.

Definition set_throttle {A} (v : A) (d : t A) : t A := make v (steering d).
Definition set_steering {A} (v : A) (d : t A) : t A := make (throttle d) v.
End StatusControls.

(** What the video pipeline of one loop iteration hands to the control code:
    either [len(contours) = 0], or the enclosing circle
    [((coordinate_x, coordinate_y), radius)] of the biggest contour. *)
Inductive Detection (A : Type) : Type :=
| no_contours
| enclosing_circle (coordinate_x coordinate_y radius : A).
Arguments no_contours {A}.

(** One call of [client.setCarControls], as seen from outside: the controls
    handed over, and whether the call returned or raised. *)
Inductive Call (A : Type) : Type :=
| Delivered (c : CarControls.t A)
| Failed (c : CarControls.t A).

Definition controls_of {A} (e : Call A) : CarControls.t A :=
  match e with Delivered c => c | Failed c => c end.

(** ** A simulator to run the script against

    The connection of the real script is the AirSim client.  To run the
    embedding, a stand-in: it records the controls it receives and raises when
    the session is not connected. *)
Module Simulator.
Record t (A : Type) : Type := make {
  connected : bool;
  received : list (CarControls.t A)
}.

Inductive error : Type := NotConnected.

Definition setCarControls {A} (client : t A) (controls : CarControls.t A)
  : t A * option error :=
  if connected client
  then (make true (received client ++ [controls]), None)
  else (client, Some NotConnected).

(** [airsim.CarControls()] *)
Definition CarControls0 {A} `{Number A} : CarControls.t A :=
  CarControls.make (of_int 0) (of_int 0) false 0.
End Simulator.

(** ** The stateful part *)

Section CommandGate.

Context {A : Type} `{Number A}.

(** The simulator connection is an external collaborator: a client handle of
    some type, and [setCarControls], which returns the client after the call
    together with the exception the call raised, if any. *)
Variable Client : Type.
Variable Exn : Type.
Variable setCarControls : Client -> CarControls.t A -> Client * option Exn.

(** The objects [main] creates once and every call shares, and the history of
    the calls made to the simulator. *)
Record World : Type := {
  status_controls : StatusControls.t A;
  car_controls : CarControls.t A;
  client : Client;
  calls : list (Call A)
}.

Definition with_status (f : StatusControls.t A -> StatusControls.t A) (w : World) :=
  {| status_controls := f (status_controls w); car_controls := car_controls w;
     client := client w; calls := calls w |}.

Definition with_car (f : CarControls.t A -> CarControls.t A) (w : World) :=
  {| status_controls := status_controls w; car_controls := f (car_controls w);
     client := client w; calls := calls w |}.

(** A computation either returns a value or raises; both leave a world behind,
    since assignments made before an exception stay made. *)
Inductive Result (X : Type) : Type :=
| Returns (x : X) (w : World)
| Raises (e : Exn) (w : World).
Arguments Raises {X}.

Definition world_of {X} (r : Result X) : World :=
  match r with Returns _ w => w | Raises _ w => w end.

Definition M (X : Type) : Type := World -> Result X.

Definition ret {X} (x : X) : M X := fun w => Returns x w.

Definition bind {X Y} (m : M X) (k : X -> M Y) : M Y :=
  fun w => match m w with
           | Returns x w' => k x w'
           | Raises e w' => Raises e w'
           end.

Notation "x <- m ;; k" := (bind m (fun x => k))
  (at level 61, m at next level, right associativity).
Notation "m ;; k" := (bind m (fun _ => k))
  (at level 61, right associativity).

Definition read {X} (f : World -> X) : M X := fun w => Returns (f w) w.
Definition write (f : World -> World) : M unit := fun w => Returns tt (f w).

(** [client.setCarControls(car_controls)] *)
Definition call_setCarControls : M unit :=
  fun w =>
    let c := car_controls w in
    match setCarControls (client w) c with
    | (client', None) =>
        Returns tt {| status_controls := status_controls w; car_controls := c;
                      client := client'; calls := calls w ++ [Delivered c] |}
    | (client', Some e) =>
        Raises e {| status_controls := status_controls w; car_controls := c;
                    client := client'; calls := calls w ++ [Failed c] |}
    end.

Local Open Scope num_scope.

(** ** The command gate *)

Definition send_controls (throttle steering : A) : M (StatusControls.t A) :=
  status <- read status_controls ;;
  let diff_throttle :=
    abs (StatusControls.throttle status - throttle) >? CONTROL_THROTTLE_THRESHOLD in
  let diff_steering :=
    abs (StatusControls.steering status - steering) >? CONTROL_STEERING_THRESHOLD in
  (if diff_throttle || diff_steering then
     write (with_car (CarControls.set_throttle throttle)) ;;
     write (with_car (CarControls.set_steering steering)) ;;
     (if throttle <? of_int 0 then
        write (with_car (CarControls.set_is_manual_gear true)) ;;
        write (with_car (CarControls.set_manual_gear (-1)))
      else
        write (with_car (CarControls.set_is_manual_gear false))) ;;
     call_setCarControls ;;
     write (with_status (StatusControls.set_throttle throttle)) ;;
     write (with_status (StatusControls.set_steering steering))
   else ret tt) ;;
  read status_controls.

(** ** The sampling loop of [main] *)

(** The control part of one iteration of [while True], given what the video
    pipeline found in the frame. *)
Definition loop_body (found : Detection A) : M unit :=
  match found with
  | enclosing_circle coordinate_x coordinate_y radius =>
      if radius >? THRESHOLD_CONTOUR then
        let '(throttle, steering) :=
          coordinates_to_controls coordinate_x coordinate_y in
        send_controls throttle steering ;; ret tt
      else ret tt
  | no_contours =>
      send_controls (of_int 0) (of_int 0) ;; ret tt
  end.

(** The iterations up to the one in which the exit key is seen. *)
Fixpoint main_loop (frames : list (Detection A)) : M unit :=
  match frames with
  | [] => ret tt
  | found :: frames' => loop_body found ;; main_loop frames'
  end.

(** [connect_airsim], given the client the library hands out once the
    connection is confirmed and a fresh [airsim.CarControls()]: the car
    controls are returned with [is_manual_gear = False]. *)
Definition connect_airsim (client0 : Client) (car_controls0 : CarControls.t A)
  : Client * CarControls.t A :=
  (client0, CarControls.set_is_manual_gear false car_controls0).

(** The world when [main] enters the loop: the client and the car controls
    of [connect_airsim], and [status_controls] initialized to zero on both
    keys. *)
Definition initial_world (client0 : Client) (car_controls0 : CarControls.t A) : World :=
  let '(client, car_controls) := connect_airsim client0 car_controls0 in
  {| status_controls := StatusControls.make (of_int 0) (of_int 0);
     car_controls := car_controls;
     client := client;
     calls := [] |}.

(** A sequence of calls of [send_controls], one per candidate pair. *)
Fixpoint send_all (candidates : list (A * A)) : M unit :=
  match candidates with
  | [] => ret tt
  | (throttle, steering) :: rest => send_controls throttle steering ;; send_all rest
  end.

(** ** Notions the statements use *)

(** The candidate differs from the last controls sent by more than the
    threshold on at least one axis. *)
Definition exceeds (status : StatusControls.t A) (throttle steering : A) : bool :=
  (abs (StatusControls.throttle status - throttle) >? CONTROL_THROTTLE_THRESHOLD)
  || (abs (StatusControls.steering status - steering) >? CONTROL_STEERING_THRESHOLD).

(** The controls [send_controls] hands to the simulator for a candidate: the
    gear is taken from the sign of the throttle, and [manual_gear] is only
    assigned on the reverse branch. *)
Definition command (before : CarControls.t A) (throttle steering : A) : CarControls.t A :=
  CarControls.make throttle steering (throttle <? of_int 0)
    (if throttle <? of_int 0 then (-1)%Z else CarControls.manual_gear before).

Definition last_sent (w : World) : A * A :=
  (StatusControls.throttle (status_controls w), StatusControls.steering (status_controls w)).

(** The (throttle, steering) of the last call that returned, [(0, 0)] if none
    did. *)
Fixpoint last_delivered_from (default : A * A) (history : list (Call A)) : A * A :=
  match history with
  | [] => default
  | Delivered c :: rest =>
      last_delivered_from (CarControls.throttle c, CarControls.steering c) rest
  | Failed _ :: rest => last_delivered_from default rest
  end.

Definition last_delivered (history : list (Call A)) : A * A :=
  last_delivered_from (of_int 0, of_int 0) history.

(** [status_controls] agrees with the history of the connection. *)
Definition in_step (w : World) : Prop := last_sent w = last_delivered (calls w).

End CommandGate.

Arguments World : clear implicits.
Arguments Result : clear implicits.
Arguments M : clear implicits.
Arguments Returns {A Client Exn X}.
Arguments Raises {A Client Exn X}.

(** ** A run against the stand-in simulator *)

(** The world when [main] enters the loop, the simulator connected. *)
Definition started (A : Type) `{Number A} : World A (Simulator.t A) :=
  initial_world (Simulator.make true []) Simulator.CarControls0.
Arguments started A {_}.

(** The same with a session that is not connected. *)
Definition disconnected (A : Type) `{Number A} : World A (Simulator.t A) :=
  initial_world (Simulator.make false []) Simulator.CarControls0.
Arguments disconnected A {_}.

(** The integer pixel coordinates [0, 1, ..., n]. *)
Definition pixels (n : nat) : list Z := map Z.of_nat (seq 0 (S n)).

(** ** The exit key and the loop as [main] runs it *)

(** [EXIT_KEY = 'x'] *)
Definition EXIT_KEY : ascii := "x"%char.

(** Python's [ord] on a string of one character. *)
Definition ord (c : ascii) : Z := Z.of_nat (nat_of_ascii c).

(** [(cv2.waitKey(1) & 0xFF) == ord(EXIT_KEY)], for the integer that
    [cv2.waitKey] returned ([-1] when no key was pressed).  Python's [&] on
    integers of any sign is [Z.land]. *)
Definition exit_requested (key : Z) : bool :=
  (Z.land key 255 =? ord EXIT_KEY)%Z.

(** Where the loop of [main] stands after the inputs seen so far. *)
Inductive LoopState : Type :=
| Looping
| Exited.

Section MainRun.

Context {A : Type} `{Number A}.
Variable Client : Type.
Variable Exn : Type.
Variable setCarControls : Client -> CarControls.t A -> Client * option Exn.

(** The loop of [main] over what each iteration gets from outside: the
    detection in the frame, and the key [cv2.waitKey] returns at the end of
    the iteration.  The key is tested after the controls are sent; on the exit
    key the loop breaks. *)
Fixpoint main_run (inputs : list (Detection A * Z)) : M A Client Exn LoopState :=
  match inputs with
  | [] => ret Exn Looping
  | (found, key) :: rest =>
      bind (loop_body setCarControls found)
           (fun _ => if exit_requested key then ret Exn Exited else main_run rest)
  end.

End MainRun.

(** ** Notions on the history of calls *)

Definition is_delivered {A} (e : Call A) : bool :=
  match e with Delivered _ => true | Failed _ => false end.

Section History.

Context {A : Type} `{Number A}.

(** Every call of the history hands over controls that differ by more than
    a threshold from the controls delivered before it, [last] to begin with. *)
Fixpoint spaced (last : A * A) (history : list (Call A)) : Prop :=
  match history with
  | [] => True
  | e :: rest =>
      exceeds (StatusControls.make (fst last) (snd last))
              (CarControls.throttle (controls_of e))
              (CarControls.steering (controls_of e)) = true
      /\ spaced (match e with
                 | Delivered c => (CarControls.throttle c, CarControls.steering c)
                 | Failed _ => last
                 end) rest
  end.

(** Every call of the history carries [manual_gear = -1] if its throttle is
    negative, and otherwise the [manual_gear] of the call before it, [gear] to
    begin with. *)
Fixpoint gears_from (gear : Z) (history : list (Call A)) : Prop :=
  match history with
  | [] => True
  | e :: rest =>
      CarControls.manual_gear (controls_of e)
      = (if lt (CarControls.throttle (controls_of e)) (of_int 0)
         then (-1)%Z else gear)
      /\ gears_from (CarControls.manual_gear (controls_of e)) rest
  end.

End History.

(** A second law, for what happens when a candidate is repeated: a number
    is within the thresholds of itself.  (On floats, [x - x] is zero or not a
    number, and neither is greater than [0.1].) *)
Class RepeatLaw (A : Type) `{Number A} : Prop := {
  same_is_close : forall x : A, gt (abs (sub x x)) (of_decimal 1 10) = false
}.
Arguments RepeatLaw A {_}.

Section HistoryNotions.

Context {A : Type} `{Number A}.
Variable Client : Type.
Variable Exn : Type.

(** [status_controls] agrees with the history, and the history is spaced. *)
Definition in_step_and_spaced (w : World A Client) : Prop :=
  in_step w /\ spaced (of_int 0, of_int 0) (calls w).

(** A run that has not failed yet, or has just failed. *)
Definition failed_at_most_last {X} (r : Result A Client Exn X) : Prop :=
  match r with
  | Returns _ w => forallb is_delivered (calls w) = true
  | Raises _ w =>
      exists history c,
        calls w = history ++ [Failed c]
        /\ forallb is_delivered history = true
  end.

(** The [manual_gear] of the last call of the history, [gear] if there is
    none. *)
Definition last_gear (gear : Z) (history : list (Call A)) : Z :=
  fold_left (fun _ e => CarControls.manual_gear (controls_of e)) history gear.

(** The history follows [gears_from], and [car_controls] holds the gear of
    its last call. *)
Definition gears_kept (gear : Z) (w : World A Client) : Prop :=
  gears_from gear (calls w)
  /\ CarControls.manual_gear (car_controls w) = last_gear gear (calls w).

End HistoryNotions.

(** * Facts *)

(** ** Running [send_controls] *)

Section CommandGateFacts.

Context {A : Type} `{Number A}.
Variable Client : Type.
Variable Exn : Type.
Variable setCarControls : Client -> CarControls.t A -> Client * option Exn.

(** What one call of [send_controls] does, case by case. *)
Lemma send_controls_run (w : World A Client) (throttle steering : A) :
  send_controls setCarControls throttle steering w =
  if exceeds (status_controls w) throttle steering then
    let c := command (car_controls w) throttle steering in
    match setCarControls (client w) c with
    | (client', None) =>
        Returns (StatusControls.make throttle steering)
          {| status_controls := StatusControls.make throttle steering;
             car_controls := c; client := client';
             calls := calls w ++ [Delivered c] |}
    | (client', Some e) =>
        Raises e
          {| status_controls := status_controls w;
             car_controls := c; client := client';
             calls := calls w ++ [Failed c] |}
    end
  else Returns (status_controls w) w.
Proof.
  unfold send_controls, exceeds, command, bind, read, write, ret.
  destruct (_ || _); [|reflexivity].
  unfold call_setCarControls, with_car, with_status; cbn.
  destruct (lt throttle (of_int 0)); cbn;
    destruct (setCarControls _ _) as [client' [e|]]; reflexivity.
Qed.

(** The history after one call of [send_controls]. *)
Lemma send_controls_calls (w : World A Client) (throttle steering : A) :
  calls (world_of (send_controls setCarControls throttle steering w)) =
  if exceeds (status_controls w) throttle steering then
    calls w ++
    [match snd (setCarControls (client w) (command (car_controls w) throttle steering)) with
     | None => Delivered (command (car_controls w) throttle steering)
     | Some _ => Failed (command (car_controls w) throttle steering)
     end]
  else calls w.
Proof.
  rewrite send_controls_run.
  destruct (exceeds _ _ _); [|reflexivity].
  cbn. destruct (setCarControls _ _) as [client' [e|]]; reflexivity.
Qed.

(** A candidate within the thresholds changes nothing at all. *)
Lemma send_controls_suppressed (w : World A Client) (throttle steering : A) :
  exceeds (status_controls w) throttle steering = false ->
  send_controls setCarControls throttle steering w = Returns (status_controls w) w.
Proof.
  intros Hno. rewrite send_controls_run, Hno. reflexivity.
Qed.

Lemma last_delivered_from_app (default : A * A) (history : list (Call A)) (e : Call A) :
  last_delivered_from default (history ++ [e]) =
  match e with
  | Delivered c => (CarControls.throttle c, CarControls.steering c)
  | Failed _ => last_delivered_from default history
  end.
Proof.
  revert default.
  induction history as [|e' history IH]; intros default; cbn.
  - destruct e; reflexivity.
  - destruct e'; apply IH.
Qed.

Lemma initial_world_in_step (client0 : Client) (controls0 : CarControls.t A) :
  in_step (initial_world client0 controls0).
Proof. reflexivity. Qed.

Lemma send_controls_in_step (w : World A Client) (throttle steering : A) :
  in_step w -> in_step (world_of (send_controls setCarControls throttle steering w)).
Proof.
  unfold in_step, last_delivered. intros Hw.
  rewrite send_controls_run.
  destruct (exceeds _ _ _); [|exact Hw].
  cbn. destruct (setCarControls _ _) as [client' [e|]]; cbn;
    rewrite last_delivered_from_app; [exact Hw | reflexivity].
Qed.

(** Sequencing keeps a property of the world that each part keeps, whether
    the parts return or raise. *)
Lemma bind_keeps (P : World A Client -> Prop) {X Y}
  (m : M A Client Exn X) (k : X -> M A Client Exn Y) (w : World A Client) :
  P (world_of (m w)) ->
  (forall x w', P w' -> P (world_of (k x w'))) ->
  P (world_of (bind m k w)).
Proof.
  unfold bind. intros Hm Hk.
  destruct (m w) as [x w'|e w']; cbn in *; auto.
Qed.

Lemma send_all_in_step (candidates : list (A * A)) (w : World A Client) :
  in_step w -> in_step (world_of (send_all setCarControls candidates w)).
Proof.
  revert w.
  induction candidates as [|[throttle steering] rest IH]; intros w Hw; cbn.
  - exact Hw.
  - apply bind_keeps.
    + now apply send_controls_in_step.
    + intros _ w' Hw'. now apply IH.
Qed.

Lemma loop_body_in_step (found : Detection A) (w : World A Client) :
  in_step w -> in_step (world_of (loop_body setCarControls found w)).
Proof.
  intros Hw. destruct found as [|x y radius]; cbn.
  - apply bind_keeps; [now apply send_controls_in_step | intros; assumption].
  - destruct (radius >? THRESHOLD_CONTOUR)%num; [|exact Hw].
    destruct (coordinates_to_controls x y) as [throttle steering].
    apply bind_keeps; [now apply send_controls_in_step | intros; assumption].
Qed.

Lemma main_loop_in_step (frames : list (Detection A)) (w : World A Client) :
  in_step w -> in_step (world_of (main_loop setCarControls frames w)).
Proof.
  revert w.
  induction frames as [|found frames IH]; intros w Hw; cbn.
  - exact Hw.
  - apply bind_keeps.
    + now apply loop_body_in_step.
    + intros _ w' Hw'. now apply IH.
Qed.

(** A contour that is not significative: the iteration does not call [send_controls]. *)
Lemma loop_body_small_radius (x y radius : A) (w : World A Client) :
  (radius >? THRESHOLD_CONTOUR)%num = false ->
  loop_body setCarControls (enclosing_circle x y radius) w = Returns tt w.
Proof.
  intros Hsmall. cbn. rewrite Hsmall. reflexivity.
Qed.

End CommandGateFacts.

(** ** The laws at the two instances *)

Lemma Qltb_lt (x y : Q) : Qltb x y = true <-> x < y.
Proof.
  unfold Qltb. rewrite negb_true_iff, <- not_true_iff_false, Qle_bool_iff.
  split; [apply Qnot_le_lt | apply Qlt_not_le].
Qed.

Lemma Qltb_ge (x y : Q) : Qltb x y = false <-> y <= x.
Proof.
  unfold Qltb. rewrite negb_false_iff. apply Qle_bool_iff.
Qed.

#[export] Instance NumberLaws_Q : NumberLaws Q.
Proof.
  split. intros x y Hxy. unfold gt. cbn in *.
  apply Qltb_ge. rewrite Hxy. apply Qle_refl.
Qed.

Lemma SFcompare_antisym (x y : spec_float) :
  SFcompare y x =
  match SFcompare x y with Some c => Some (CompOpp c) | None => None end.
Proof.
  destruct x as [sx|sx| |sx mx ex], y as [sy|sy| |sy my ey]; cbn;
    try reflexivity;
    try (destruct sx; reflexivity);
    try (destruct sy; reflexivity);
    try (destruct sx, sy; reflexivity).
  rewrite (Z.compare_antisym ex ey).
  assert (Hm : Pos.compare_cont Eq my mx = CompOpp (Pos.compare_cont Eq mx my))
    by (symmetry; apply (Pos.compare_cont_antisym mx my Eq)).
  rewrite Hm.
  destruct sx, sy; cbn; try reflexivity;
    destruct (ex ?= ey)%Z; cbn; try reflexivity;
    destruct (Pos.compare_cont Eq mx my); reflexivity.
Qed.

#[export] Instance NumberLaws_binary64 : NumberLaws spec_float.
Proof.
  split. intros x y Hxy. unfold gt. cbn in *.
  unfold Binary64.eq, SFeqb in Hxy. unfold SFltb.
  rewrite SFcompare_antisym.
  destruct (SFcompare x y) as [[| |]|]; try discriminate; reflexivity.
Qed.

Lemma app_one_neq {X} (l : list X) (x : X) : l ++ [x] <> l.
Proof.
  intros Heq. apply (f_equal (@length X)) in Heq.
  rewrite length_app in Heq. cbn in Heq. lia.
Qed.

(** * The command gate *)

Unset Implicit Arguments.

Local Open Scope num_scope.

(** C1. [send_controls] calls [client.setCarControls] if and only if the
    candidate differs from the last controls sent by more than
    [CONTROL_THROTTLE_THRESHOLD] in throttle or by more than
    [CONTROL_STEERING_THRESHOLD] in steering, and it calls it at most once;
    this holds for every number model and every connection.  In particular,
    from the last sent controls (0, 0), in exact arithmetic and in binary64
    alike, the candidate (0.05, 0.05) is not transmitted and leaves everything
    as it was, while (0.15, 0) is transmitted with the automatic gear and
    becomes the last sent controls. *)
Theorem send_controls_transmits_iff :
  (forall (A : Type) (N : Number A) (Client Exn : Type)
          (setCarControls : Client -> CarControls.t A -> Client * option Exn)
          (w : World A Client) (throttle steering : A),
      let last := status_controls w in
      let w' := world_of (send_controls setCarControls throttle steering w) in
      ((exists e, calls w' = calls w ++ [e]) <->
       (abs (StatusControls.throttle last - throttle) >? CONTROL_THROTTLE_THRESHOLD) = true \/
       (abs (StatusControls.steering last - steering) >? CONTROL_STEERING_THRESHOLD) = true)
      /\ (calls w' = calls w \/ exists e, calls w' = calls w ++ [e]))
  /\ (send_controls Simulator.setCarControls (of_decimal 5 100) (of_decimal 5 100) (started Q)
      = Returns (StatusControls.make (of_int 0) (of_int 0)) (started Q))
  /\ (let w' := world_of (send_controls Simulator.setCarControls
                            (of_decimal 15 100) (of_int 0) (started Q)) in
      calls w' = [Delivered (CarControls.make (of_decimal 15 100) (of_int 0) false 0)]
      /\ last_sent w' = (of_decimal 15 100, of_int 0))
  /\ (send_controls Simulator.setCarControls (of_decimal 5 100) (of_decimal 5 100)
        (started spec_float)
      = Returns (StatusControls.make (of_int 0) (of_int 0)) (started spec_float))
  /\ (let w' := world_of (send_controls Simulator.setCarControls
                            (of_decimal 15 100) (of_int 0) (started spec_float)) in
      calls w' = [Delivered (CarControls.make (of_decimal 15 100) (of_int 0) false 0)]
      /\ last_sent w' = (of_decimal 15 100, of_int 0)).
Proof.
  split; [|repeat split; vm_compute; reflexivity].
  intros A N Client Exn setCarControls w throttle steering last w'.
  subst w' last. rewrite send_controls_calls. unfold exceeds.
  rewrite <- orb_true_iff.
  destruct (_ || _); split.
  - split; [reflexivity|]. intros _. eexists. reflexivity.
  - right. eexists. reflexivity.
  - split; [|discriminate]. intros [e He]. symmetry in He.
    now apply app_one_neq in He.
  - left. reflexivity.
Qed.

(** C3. From the world in which [main] enters the loop, after any sequence of
    calls of [send_controls], and after any number of iterations of the loop of
    [main] (up to and including a call in which the connection raises), the
    pair in [status_controls] is the throttle and steering of the last call of
    [client.setCarControls] that returned, and (0, 0) if none did; and a
    candidate within both thresholds leaves [status_controls] as it was. *)
Theorem last_sent_is_last_delivered
  (A : Type) (N : Number A) (Client Exn : Type)
  (setCarControls : Client -> CarControls.t A -> Client * option Exn) :
  (forall (client0 : Client) (controls0 : CarControls.t A) (candidates : list (A * A)),
      let w := world_of (send_all setCarControls candidates
                           (initial_world client0 controls0)) in
      last_sent w = last_delivered (calls w))
  /\ (forall (client0 : Client) (controls0 : CarControls.t A) (frames : list (Detection A)),
         let w := world_of (main_loop setCarControls frames
                              (initial_world client0 controls0)) in
         last_sent w = last_delivered (calls w))
  /\ (forall (w : World A Client) (throttle steering : A),
         (abs (StatusControls.throttle (status_controls w) - throttle)
            >? CONTROL_THROTTLE_THRESHOLD) = false ->
         (abs (StatusControls.steering (status_controls w) - steering)
            >? CONTROL_STEERING_THRESHOLD) = false ->
         let w' := world_of (send_controls setCarControls throttle steering w) in
         status_controls w' = status_controls w /\ calls w' = calls w).
Proof.
  split; [|split].
  - intros client0 controls0 candidates w.
    apply send_all_in_step, initial_world_in_step.
  - intros client0 controls0 frames w.
    apply main_loop_in_step, initial_world_in_step.
  - intros w throttle steering Ht Hs w'. subst w'.
    rewrite send_controls_suppressed; [split; reflexivity|].
    unfold exceeds. now rewrite Ht, Hs.
Qed.

(** A history with a delivered command, a suppressed one, a second delivered
    one and a suppressed stop. *)
Lemma last_sent_is_last_delivered_witness :
  (let w := world_of (send_all Simulator.setCarControls
                        [(of_decimal 15 100, of_int 0); (of_decimal 2 10, of_decimal 5 100);
                         (of_decimal (-3) 10, of_int 0); (of_decimal (-25) 100, of_int 0)]
                        (initial_world (Simulator.make true []) Simulator.CarControls0)) in
   last_sent w = last_delivered (calls w)
   /\ last_sent w = ((-3 # 10)%Q, 0%Q) /\ length (calls w) = 2%nat)
  /\ (let w' := world_of (send_controls Simulator.setCarControls (5 # 100)%Q (5 # 100)%Q
                            (started Q)) in
      status_controls w' = status_controls (started Q) /\ calls w' = calls (started Q)).
Proof.
  split.
  - split; [|split; reflexivity].
    exact (proj1 (last_sent_is_last_delivered Q Number_Q _ _ Simulator.setCarControls)
             (Simulator.make true []) Simulator.CarControls0
             [(of_decimal 15 100, of_int 0); (of_decimal 2 10, of_decimal 5 100);
              (of_decimal (-3) 10, of_int 0); (of_decimal (-25) 100, of_int 0)]).
  - exact (proj2 (proj2 (last_sent_is_last_delivered Q Number_Q _ _
                           Simulator.setCarControls))
             (started Q) (5 # 100)%Q (5 # 100)%Q eq_refl eq_refl).
Defined.

(** C4. The comparison of the command gate is strict: in every number model in which
    a number is not greater than one of the same value, a candidate whose
    distance to the last sent controls has the value of the threshold on both
    axes is not transmitted, and the call changes nothing. *)
Theorem threshold_is_strict
  (A : Type) (N : Number A) (L : NumberLaws A) (Client Exn : Type)
  (setCarControls : Client -> CarControls.t A -> Client * option Exn)
  (w : World A Client) (throttle steering : A) :
  num_eq (abs (StatusControls.throttle (status_controls w) - throttle))
         CONTROL_THROTTLE_THRESHOLD ->
  num_eq (abs (StatusControls.steering (status_controls w) - steering))
         CONTROL_STEERING_THRESHOLD ->
  send_controls setCarControls throttle steering w = Returns (status_controls w) w.
Proof.
  intros Ht Hs. apply send_controls_suppressed. unfold exceeds.
  now rewrite (gt_strict _ _ Ht), (gt_strict _ _ Hs).
Qed.

(** From (0, 0), the candidate (0.1, 0.1), in exact arithmetic. *)
Lemma threshold_is_strict_witness :
  send_controls Simulator.setCarControls (1 # 10)%Q (1 # 10)%Q (started Q)
  = Returns (status_controls (started Q)) (started Q).
Proof.
  apply (threshold_is_strict Q Number_Q NumberLaws_Q); reflexivity.
Defined.

(** The boundary case of the specification on Python floats: from (0, 0), the candidate
    (0.1, 0.1) is not transmitted. *)
Lemma threshold_boundary_binary64 :
  send_controls Simulator.setCarControls (of_decimal 1 10) (of_decimal 1 10)
    (started spec_float)
  = Returns (status_controls (started spec_float)) (started spec_float).
Proof. vm_compute. reflexivity. Qed.

(** C5. Every transmitted command carries the candidate throttle and
    steering, and its gear follows the sign of the candidate throttle: with
    [throttle < 0] it is sent with [is_manual_gear = True] and
    [manual_gear = -1], otherwise with [is_manual_gear = False] (automatic
    gear).  In particular the candidate (-0.3, 0) from (0, 0) is transmitted
    in reverse gear, in exact arithmetic and in binary64. *)
Theorem gear_follows_throttle_sign :
  (forall (A : Type) (N : Number A) (Client Exn : Type)
          (setCarControls : Client -> CarControls.t A -> Client * option Exn)
          (w : World A Client) (throttle steering : A) (e : Call A),
      calls (world_of (send_controls setCarControls throttle steering w))
        = calls w ++ [e] ->
      let c := controls_of e in
      CarControls.throttle c = throttle
      /\ CarControls.steering c = steering
      /\ ((throttle <? of_int 0) = true ->
          CarControls.is_manual_gear c = true /\ CarControls.manual_gear c = (-1)%Z)
      /\ ((throttle <? of_int 0) = false -> CarControls.is_manual_gear c = false))
  /\ calls (world_of (send_controls Simulator.setCarControls
                        (- of_decimal 3 10) (of_int 0) (started Q)))
     = [Delivered (CarControls.make (- of_decimal 3 10) (of_int 0) true (-1))]
  /\ calls (world_of (send_controls Simulator.setCarControls
                        (- of_decimal 3 10) (of_int 0) (started spec_float)))
     = [Delivered (CarControls.make (- of_decimal 3 10) (of_int 0) true (-1))].
Proof.
  split; [|split; vm_compute; reflexivity].
  intros A N Client Exn setCarControls w throttle steering e He c. subst c.
  rewrite send_controls_calls in He.
  destruct (exceeds _ _ _).
  - apply app_inv_head in He. injection He as <-.
    unfold command.
    destruct (snd _); cbn; destruct (throttle <? of_int 0);
      repeat split; intros; congruence.
  - symmetry in He. now apply app_one_neq in He.
Qed.

(** A reverse command and a forward command, each transmitted. *)
Lemma gear_follows_throttle_sign_witness :
  (let c := CarControls.make (-3 # 10)%Q 0%Q true (-1) in
   CarControls.throttle c = (-3 # 10)%Q /\ CarControls.steering c = 0%Q
   /\ (Qltb (-3 # 10) 0 = true ->
       CarControls.is_manual_gear c = true /\ CarControls.manual_gear c = (-1)%Z)
   /\ (Qltb (-3 # 10) 0 = false -> CarControls.is_manual_gear c = false))
  /\ (let c := CarControls.make (1 # 2)%Q 0%Q false 0 in
      CarControls.throttle c = (1 # 2)%Q /\ CarControls.steering c = 0%Q
      /\ (Qltb (1 # 2) 0 = true ->
          CarControls.is_manual_gear c = true /\ CarControls.manual_gear c = (-1)%Z)
      /\ (Qltb (1 # 2) 0 = false -> CarControls.is_manual_gear c = false)).
Proof.
  split.
  - exact (proj1 gear_follows_throttle_sign Q Number_Q _ _ Simulator.setCarControls
             (started Q) (-3 # 10)%Q 0%Q
             (Delivered (CarControls.make (-3 # 10)%Q 0%Q true (-1))) eq_refl).
  - exact (proj1 gear_follows_throttle_sign Q Number_Q _ _ Simulator.setCarControls
             (started Q) (1 # 2)%Q 0%Q
             (Delivered (CarControls.make (1 # 2)%Q 0%Q false 0)) eq_refl).
Defined.

(** C10. When the call of [client.setCarControls] raises, the exception
    leaves [send_controls] before [status_controls] is assigned: the call is
    on record as failed, [status_controls] is as it was, and if it agreed with
    the last delivered command before, it still does. *)
Theorem failed_call_keeps_last_sent
  (A : Type) (N : Number A) (Client Exn : Type)
  (setCarControls : Client -> CarControls.t A -> Client * option Exn)
  (w : World A Client) (throttle steering : A) (client' : Client) (e : Exn) :
  exceeds (status_controls w) throttle steering = true ->
  setCarControls (client w) (command (car_controls w) throttle steering)
    = (client', Some e) ->
  exists w',
    send_controls setCarControls throttle steering w = Raises e w'
    /\ calls w' = calls w ++ [Failed (command (car_controls w) throttle steering)]
    /\ status_controls w' = status_controls w
    /\ (last_sent w = last_delivered (calls w) ->
        last_sent w' = last_delivered (calls w')).
Proof.
  intros Hexc Hcall.
  rewrite send_controls_run, Hexc. cbn. rewrite Hcall.
  eexists. split; [reflexivity|]. cbn. repeat split.
  intros Hw. unfold last_delivered. rewrite last_delivered_from_app. exact Hw.
Qed.

(** A session that is not connected, and the candidate (0.5, 0). *)
Lemma failed_call_keeps_last_sent_witness :
  exists w',
    send_controls Simulator.setCarControls (1 # 2)%Q 0%Q (disconnected Q)
      = Raises Simulator.NotConnected w'
    /\ calls w' = calls (disconnected Q)
                  ++ [Failed (command (car_controls (disconnected Q)) (1 # 2)%Q 0%Q)]
    /\ status_controls w' = status_controls (disconnected Q)
    /\ (last_sent (disconnected Q) = last_delivered (calls (disconnected Q)) ->
        last_sent w' = last_delivered (calls w')).
Proof.
  apply (failed_call_keeps_last_sent Q Number_Q _ _ Simulator.setCarControls
           (disconnected Q) (1 # 2)%Q 0%Q (Simulator.make false [])
           Simulator.NotConnected); reflexivity.
Defined.

(** * The sampling loop *)

(** C2. The loop does not treat a contour of radius at most
    [THRESHOLD_CONTOUR] as the absence of a contour.  With the car driving
    forward after a significative detection at (320, 120), a frame whose
    biggest contour has radius 5 makes the iteration return without a call of
    [send_controls]: nothing is transmitted and the car keeps its throttle,
    whereas a frame without contours transmits the stop command (0, 0).  The
    same in exact arithmetic and in binary64. *)
Theorem small_contour_sends_no_stop :
  (let moving := world_of (loop_body Simulator.setCarControls
                             (enclosing_circle (of_int 320) (of_int 120) (of_int 20))
                             (started Q)) in
   (fst (last_sent moving) == 1 # 2)%Q
   /\ (of_int 5 >? THRESHOLD_CONTOUR) = false
   /\ loop_body Simulator.setCarControls
        (enclosing_circle (of_int 320) (of_int 120) (of_int 5)) moving
      = Returns tt moving
   /\ calls (world_of (loop_body Simulator.setCarControls no_contours moving))
      = calls moving ++ [Delivered (CarControls.make (of_int 0) (of_int 0) false 0)])
  /\ (let moving := world_of (loop_body Simulator.setCarControls
                                (enclosing_circle (of_int 320) (of_int 120) (of_int 20))
                                (started spec_float)) in
      fst (last_sent moving) = of_decimal 1 2
      /\ (of_int 5 >? THRESHOLD_CONTOUR) = false
      /\ loop_body Simulator.setCarControls
           (enclosing_circle (of_int 320) (of_int 120) (of_int 5)) moving
         = Returns tt moving
      /\ calls (world_of (loop_body Simulator.setCarControls no_contours moving))
         = calls moving ++ [Delivered (CarControls.make (of_int 0) (of_int 0) false 0)]).
Proof.
  repeat split; vm_compute; reflexivity.
Qed.

(** * The control mapper, in exact arithmetic *)

Local Close Scope num_scope.
Local Open Scope Q_scope.

(** Unfold the mapper at [Q] down to rational arithmetic with literal
    constants. *)
Ltac mapper_Q :=
  unfold coordinates_to_controls, gt, DIM_X, DIM_Y, FORWARD_RATIO;
  cbn [neg sub mul div lt of_int of_decimal Number_Q fst snd];
  unfold Qdiv;
  change (/ inject_Z 480) with (1 # 480);
  change (/ inject_Z 640) with (1 # 640);
  change (/ inject_Z 2) with (1 # 2);
  change (/ 2) with (1 # 2);
  change (inject_Z 480) with 480;
  change (inject_Z 640) with 640;
  change (inject_Z 2) with 2;
  change (inject_Z 0) with 0.

(** Case analysis on every comparison left in the goal. *)
Ltac split_tests :=
  repeat match goal with
         | |- context [Qltb ?a ?b] =>
             let E := fresh "E" in
             destruct (Qltb a b) eqn:E;
             [apply Qltb_lt in E | apply Qltb_ge in E]
         end.

(** Forward asymmetry in exact arithmetic: for every [x] and every distance
    [d > 0], the throttle for the point [d] above the vertical center is
    [-FORWARD_RATIO] times the throttle for the point [d] below it.  (On
    floats the two additions [DIM_Y/2 - d] and [DIM_Y/2 + d] may round; see
    [forward_asymmetry_without_rounding].) *)
Lemma forward_asymmetry_exact_arithmetic (x d : Q) :
  0 < d ->
  let throttle1 := fst (coordinates_to_controls x (DIM_Y / 2 - d)) in
  let throttle2 := fst (coordinates_to_controls x (DIM_Y / 2 + d)) in
  throttle1 == - FORWARD_RATIO * throttle2.
Proof.
  intros Hd. cbv zeta. mapper_Q. split_tests; lra.
Qed.

(** C7. The center of the frame maps to (0, 0): both components have the
    value zero, in exact arithmetic and in binary64 (where both are the
    float [-0.0], which Python's [==] equates with [0]). *)
Theorem center_maps_to_zero :
  (let r := coordinates_to_controls (A:=Q) (DIM_X / 2) (DIM_Y / 2) in
   fst r == 0 /\ snd r == 0)
  /\ (let r := coordinates_to_controls (A:=spec_float)
                 (div DIM_X (of_int 2)) (div DIM_Y (of_int 2)) in
      SFeqb (fst r) (of_int 0) = true /\ SFeqb (snd r) (of_int 0) = true
      /\ r = (S754_zero true, S754_zero true)).
Proof.
  repeat split.
Qed.

(** C8. Steering sign convention: on the vertical center line, an object left
    of the horizontal center gives a positive steering and an object right of
    it a negative one. *)
Theorem steering_sign_convention (x : Q) :
  (x < DIM_X / 2 -> 0 < snd (coordinates_to_controls x (DIM_Y / 2)))
  /\ (DIM_X / 2 < x -> snd (coordinates_to_controls x (DIM_Y / 2)) < 0).
Proof.
  mapper_Q. split; intros; lra.
Qed.

(** One pixel column on each side. *)
Lemma steering_sign_convention_witness :
  0 < snd (coordinates_to_controls 100 (DIM_Y / 2))
  /\ snd (coordinates_to_controls 500 (DIM_Y / 2)) < 0.
Proof.
  split.
  - apply (proj1 (steering_sign_convention 100)). reflexivity.
  - apply (proj2 (steering_sign_convention 500)). reflexivity.
Defined.

(** C9. For coordinates inside the frame, [0 <= x <= DIM_X] and
    [0 <= y <= DIM_Y], with the constants of the script (640, 480 and forward
    ratio 2), the throttle lies in [-1/2, 1] and the steering in
    [-1/2, 1/2]. *)
Theorem mapper_outputs_bounded (x y : Q) :
  0 <= x <= DIM_X ->
  0 <= y <= DIM_Y ->
  let r := coordinates_to_controls x y in
  (- (1 # 2) <= fst r <= 1) /\ (- (1 # 2) <= snd r <= 1 # 2).
Proof.
  mapper_Q. intros Hx Hy. cbv zeta. split_tests; lra.
Qed.

(** The top left corner of the frame reaches the bounds 1 and 1/2. *)
Lemma mapper_outputs_bounded_witness :
  let r := coordinates_to_controls (A:=Q) 0 0 in
  (- (1 # 2) <= fst r <= 1) /\ (- (1 # 2) <= snd r <= 1 # 2).
Proof.
  apply (mapper_outputs_bounded 0 0); split; discriminate.
Defined.

(** * The control mapper on Python floats *)

Local Close Scope Q_scope.
Local Open Scope num_scope.

(** The end-to-end scenario of the specification: the centroid (320, 120)
    gives the command (0.5, 0), in both number models. *)
Example end_to_end_scenario :
  (let r := coordinates_to_controls (A:=Q) (of_int 320) (of_int 120) in
   (fst r == 1 # 2)%Q /\ (snd r == 0)%Q)
  /\ (let r := coordinates_to_controls (A:=spec_float) (of_int 320) (of_int 120) in
      fst r = of_decimal 1 2 /\ SFeqb (snd r) (of_int 0) = true).
Proof. repeat split. Qed.

Section Binary64Facts.

Let prec := Binary64.prec.
Let emax := Binary64.emax.

Lemma SFopp_involutive (a : spec_float) : SFopp (SFopp a) = a.
Proof. destruct a as [[]|[]| |[] ? ?]; reflexivity. Qed.

(** Rounding works on the magnitude: the sign passes through. *)
Lemma binary_round_aux_negb (s : bool) (m e : Z) (l : location) :
  binary_round_aux prec emax (negb s) m e l
  = SFopp (binary_round_aux prec emax s m e l).
Proof.
  unfold binary_round_aux.
  destruct (shr_fexp prec emax m e l) as [mrs' e'].
  destruct (shr_fexp prec emax _ e' loc_Exact) as [mrs'' e''].
  destruct (shr_m mrs''); [reflexivity| |reflexivity].
  destruct (Z.leb _ _); reflexivity.
Qed.

Lemma binary_round_aux_positive (s z : bool) (m e : Z) (l : location) :
  SFltb (S754_zero z) (binary_round_aux prec emax s m e l) = true -> s = false.
Proof.
  unfold binary_round_aux.
  destruct (shr_fexp prec emax m e l) as [mrs' e'].
  destruct (shr_fexp prec emax _ e' loc_Exact) as [mrs'' e''].
  destruct (shr_m mrs''); [discriminate| |discriminate].
  destruct (Z.leb _ _), s; cbn; congruence.
Qed.

Lemma SFdiv_opp_l (a c : spec_float) :
  SFdiv prec emax (SFopp a) c = SFopp (SFdiv prec emax a c).
Proof.
  destruct a as [sa|sa| |sa ma ea], c as [sc|sc| |sc mc ec]; cbn;
    try reflexivity; try (destruct sa, sc; reflexivity).
  destruct (SFdiv_core_binary prec emax (Z.pos ma) ea (Z.pos mc) ec) as [[mz ez] lz].
  rewrite <- binary_round_aux_negb. now destruct sa, sc.
Qed.

Lemma SFmul_opp_swap (a b : spec_float) :
  SFmul prec emax a (SFopp b) = SFmul prec emax (SFopp a) b.
Proof.
  destruct a as [sa|sa| |sa ma ea], b as [sb|sb| |sb mb eb]; cbn;
    try reflexivity; try (destruct sa, sb; reflexivity).
Qed.

(** A quotient by a positive float is positive only if the dividend is. *)
Lemma SFdiv_positive (a : spec_float) (z : bool) (mc : positive) (ec : Z) :
  SFltb (S754_zero z) (SFdiv prec emax a (S754_finite false mc ec)) = true ->
  SFltb (S754_zero z) a = true.
Proof.
  destruct a as [sa|sa| |sa ma ea]; cbn; try discriminate.
  - now destruct sa.
  - destruct (SFdiv_core_binary prec emax (Z.pos ma) ea (Z.pos mc) ec) as [[mz ez] lz].
    intros Hpos. apply binary_round_aux_positive in Hpos.
    destruct sa; [discriminate|reflexivity].
Qed.

(** Mirrored offsets give throttles in the ratio [-FORWARD_RATIO]: rounding
    is symmetric in the sign, and the doubling is applied on one side only. *)
Lemma mirrored_offsets_throttle (x1 x2 y1 y2 : spec_float) :
  y2 - DIM_Y / of_int 2 = - (y1 - DIM_Y / of_int 2) ->
  (of_int 0 <? y1 - DIM_Y / of_int 2) = false ->
  fst (coordinates_to_controls x1 y1)
  = (- FORWARD_RATIO) * fst (coordinates_to_controls x2 y2).
Proof.
  unfold coordinates_to_controls, gt. cbn [fst].
  set (center := DIM_Y / of_int 2).
  intros Hmirror Habove. rewrite Hmirror.
  set (o := y1 - center) in *.
  cbn [neg sub mul div lt Number_binary64] in *.
  fold prec emax.
  rewrite !SFdiv_opp_l, !SFopp_involutive.
  set (r := SFdiv prec emax o DIM_Y).
  assert (Hr : SFltb (of_int 0) r = false).
  { destruct (SFltb (of_int 0) r) eqn:E; [|reflexivity].
    apply SFdiv_positive in E. cbn in Habove. congruence. }
  rewrite Hr.
  destruct (SFltb (of_int 0) (SFopp r)) eqn:E.
  - rewrite <- SFmul_opp_swap. reflexivity.
  - destruct r as [s|s| |s m e]; try reflexivity;
      destruct s; cbn in *; try discriminate; reflexivity.
Qed.

(** X14. Forward asymmetry on floats.  When the offsets from the vertical
    center, as the mapper computes them, mirror each other, and the first
    point is not below the center, the first throttle is the very float
    [-FORWARD_RATIO * throttle2]: rounding is symmetric in the sign, and the
    doubling is applied on one side only. *)
Lemma forward_asymmetry_binary64 (x1 x2 y1 y2 : spec_float) :
  y2 - DIM_Y / of_int 2 = - (y1 - DIM_Y / of_int 2) ->
  (of_int 0 <? y1 - DIM_Y / of_int 2) = false ->
  fst (coordinates_to_controls x1 y1)
  = (- FORWARD_RATIO) * fst (coordinates_to_controls x2 y2).
Proof.
  exact (mirrored_offsets_throttle x1 x2 y1 y2).
Qed.

End Binary64Facts.

(** The mirrored offsets of rows 120 and 360, on floats. *)
Lemma forward_asymmetry_binary64_witness :
  fst (coordinates_to_controls (A:=spec_float) (of_int 320) (of_int 120))
  = (neg FORWARD_RATIO * fst (coordinates_to_controls (of_int 320) (of_int 360)))%num.
Proof.
  apply forward_asymmetry_binary64; reflexivity.
Defined.

Section Binary64NotNaN.

Let prec := Binary64.prec.
Let emax := Binary64.emax.










End Binary64NotNaN.




(** The object 120 pixels above and below the center, on floats: 0.5 is
    [-2 * -0.25]. *)
Example forward_asymmetry_binary64_at_120 :
  fst (coordinates_to_controls (A:=spec_float) (of_int 320) (of_int 120))
  = (- FORWARD_RATIO) * fst (coordinates_to_controls (of_int 320) (of_int 360))
  /\ fst (coordinates_to_controls (A:=spec_float) (of_int 320) (of_int 120))
     = of_decimal 1 2.
Proof. split; reflexivity. Qed.

(** On every integer pixel distance from the center the two throttles are
    in the ratio [-FORWARD_RATIO]. *)
Lemma forward_asymmetry_binary64_pixels :
  forallb (fun d : Z =>
             let y1 := DIM_Y / of_int 2 - of_int d in
             let y2 := SFadd Binary64.prec Binary64.emax (DIM_Y / of_int 2) (of_int d) in
             SFeqb (fst (coordinates_to_controls (A:=spec_float) (of_int 0) y1))
                   ((- FORWARD_RATIO) * fst (coordinates_to_controls (of_int 0) y2)))
          (tl (pixels 240)) = true.
Proof. vm_compute. reflexivity. Qed.

(** On every integer pixel column the steering has the sign of the
    convention: positive left of 320, negative right of it, zero on it. *)
Lemma steering_sign_binary64_pixels :
  forallb (fun x : Z =>
             let steering :=
               snd (coordinates_to_controls (A:=spec_float) (of_int x) (DIM_Y / of_int 2)) in
             if (x <? 320)%Z then of_int 0 <? steering
             else if (320 <? x)%Z then steering <? of_int 0
             else SFeqb steering (of_int 0))
          (pixels 640) = true.
Proof. vm_compute. reflexivity. Qed.

(** On every integer pixel of the frame, borders included, the throttle is
    within [-0.5, 1] and the steering within [-0.5, 0.5]. *)
Lemma mapper_bounds_binary64_pixels :
  forallb (fun y : Z =>
             let throttle :=
               fst (coordinates_to_controls (A:=spec_float) (of_int 0) (of_int y)) in
             SFleb (- of_decimal 1 2) throttle && SFleb throttle (of_int 1))
          (pixels 480) = true
  /\ forallb (fun x : Z =>
                let steering :=
                  snd (coordinates_to_controls (A:=spec_float) (of_int x) (of_int 0)) in
                SFleb (- of_decimal 1 2) steering && SFleb steering (of_decimal 1 2))
             (pixels 640) = true.
Proof. split; vm_compute; reflexivity. Qed.

(** * Further properties of the script *)

(** ** Histories of the sampling loop *)

Section HistoryFacts.

Context {A : Type} `{Number A}.
Variable Client : Type.
Variable Exn : Type.
Variable setCarControls : Client -> CarControls.t A -> Client * option Exn.

(** What [send_controls] keeps, the loop keeps. *)
Lemma loop_body_keeps (P : World A Client -> Prop) :
  (forall throttle steering w,
      P w -> P (world_of (send_controls setCarControls throttle steering w))) ->
  forall found w, P w -> P (world_of (loop_body setCarControls found w)).
Proof.
  intros Hsend found w Hw. destruct found as [|x y radius]; cbn.
  - apply bind_keeps; [now apply Hsend | intros; assumption].
  - destruct (radius >? THRESHOLD_CONTOUR); [|exact Hw].
    destruct (coordinates_to_controls x y) as [throttle steering].
    apply bind_keeps; [now apply Hsend | intros; assumption].
Qed.

Lemma main_loop_keeps (P : World A Client -> Prop) :
  (forall throttle steering w,
      P w -> P (world_of (send_controls setCarControls throttle steering w))) ->
  forall frames w, P w -> P (world_of (main_loop setCarControls frames w)).
Proof.
  intros Hsend frames.
  induction frames as [|found frames IH]; intros w Hw; cbn.
  - exact Hw.
  - apply bind_keeps.
    + now apply loop_body_keeps.
    + intros _ w' Hw'. now apply IH.
Qed.

(** One iteration runs [send_controls] once or not at all. *)
Lemma loop_body_cases (found : Detection A) (w : World A Client) :
  loop_body setCarControls found w = Returns tt w
  \/ exists throttle steering,
       loop_body setCarControls found w
       = bind (send_controls setCarControls throttle steering)
              (fun _ => ret Exn tt) w.
Proof.
  destruct found as [|x y radius]; unfold loop_body.
  - right. exists (of_int 0), (of_int 0). reflexivity.
  - destruct (radius >? THRESHOLD_CONTOUR); [|left; reflexivity].
    destruct (coordinates_to_controls x y) as [throttle steering].
    right. exists throttle, steering. reflexivity.
Qed.

(** *** Spacing *)

Lemma spaced_app (last : A * A) (history : list (Call A)) (e : Call A) :
  spaced last (history ++ [e]) <->
  spaced last history
  /\ exceeds (StatusControls.make (fst (last_delivered_from last history))
                                  (snd (last_delivered_from last history)))
             (CarControls.throttle (controls_of e))
             (CarControls.steering (controls_of e)) = true.
Proof.
  revert last.
  induction history as [|e' history IH]; intros last; cbn.
  - tauto.
  - rewrite IH. destruct e'; cbn; tauto.
Qed.

Lemma spaced_adjacent (last : A * A) (before after : list (Call A))
      (c : CarControls.t A) (e : Call A) :
  spaced last (before ++ Delivered c :: e :: after) ->
  exceeds (StatusControls.make (CarControls.throttle c) (CarControls.steering c))
          (CarControls.throttle (controls_of e))
          (CarControls.steering (controls_of e)) = true.
Proof.
  revert last.
  induction before as [|e' before IH]; intros last; cbn.
  - intros [_ [Hnext _]]. exact Hnext.
  - intros [_ Hrest]. exact (IH _ Hrest).
Qed.

Lemma send_controls_spaced (throttle steering : A) (w : World A Client) :
  in_step_and_spaced w ->
  in_step_and_spaced (world_of (send_controls setCarControls throttle steering w)).
Proof.
  intros [Hstep Hspaced]. split; [now apply send_controls_in_step|].
  rewrite send_controls_calls.
  destruct (exceeds (status_controls w) throttle steering) eqn:Hexc;
    [|exact Hspaced].
  apply spaced_app. split; [exact Hspaced|].
  unfold in_step, last_sent, last_delivered in Hstep. rewrite <- Hstep. cbn.
  destruct (snd _); cbn; destruct (status_controls w); exact Hexc.
Qed.

(** *** Length *)

Lemma send_controls_extends (throttle steering : A) (w : World A Client) :
  exists suffix,
    calls (world_of (send_controls setCarControls throttle steering w))
    = calls w ++ suffix
    /\ (length suffix <= 1)%nat.
Proof.
  rewrite send_controls_calls.
  destruct (exceeds _ _ _).
  - eexists. split; [reflexivity|]. cbn. lia.
  - exists []. rewrite app_nil_r. split; [reflexivity|]. cbn. lia.
Qed.

Lemma loop_body_extends (found : Detection A) (w : World A Client) :
  exists suffix,
    calls (world_of (loop_body setCarControls found w)) = calls w ++ suffix
    /\ (length suffix <= 1)%nat.
Proof.
  destruct (loop_body_cases found w) as [Hnone | [throttle [steering Hsend]]].
  - rewrite Hnone. exists []. rewrite app_nil_r. cbn. split; [reflexivity|lia].
  - rewrite Hsend.
    destruct (send_controls_extends throttle steering w) as [suffix Hsuffix].
    exists suffix. unfold bind.
    destruct (send_controls setCarControls throttle steering w); exact Hsuffix.
Qed.

(** *** Failures *)

Lemma send_controls_failed_at_most_last (throttle steering : A) (w : World A Client) :
  forallb is_delivered (calls w) = true ->
  failed_at_most_last (send_controls setCarControls throttle steering w).
Proof.
  intros Hw. rewrite send_controls_run.
  destruct (exceeds _ _ _); [|exact Hw].
  cbn. destruct (setCarControls _ _) as [client' [e|]]; cbn.
  - eexists _, _. split; [reflexivity|exact Hw].
  - rewrite forallb_app, Hw. reflexivity.
Qed.

Lemma loop_body_failed_at_most_last (found : Detection A) (w : World A Client) :
  forallb is_delivered (calls w) = true ->
  failed_at_most_last (loop_body setCarControls found w).
Proof.
  intros Hw.
  destruct (loop_body_cases found w) as [Hnone | [throttle [steering Hsend]]].
  - rewrite Hnone. exact Hw.
  - rewrite Hsend. unfold bind.
    pose proof (send_controls_failed_at_most_last throttle steering w Hw) as Hs.
    destruct (send_controls setCarControls throttle steering w); exact Hs.
Qed.

Lemma main_loop_failed_at_most_last (frames : list (Detection A)) (w : World A Client) :
  forallb is_delivered (calls w) = true ->
  failed_at_most_last (main_loop setCarControls frames w).
Proof.
  revert w.
  induction frames as [|found frames IH]; intros w Hw; cbn.
  - exact Hw.
  - unfold bind.
    pose proof (loop_body_failed_at_most_last found w Hw) as Hbody.
    destruct (loop_body setCarControls found w) as [[] w'|e w'].
    + apply IH. exact Hbody.
    + exact Hbody.
Qed.

(** *** Gears *)

Lemma last_gear_app (gear : Z) (history : list (Call A)) (e : Call A) :
  last_gear gear (history ++ [e]) = CarControls.manual_gear (controls_of e).
Proof.
  unfold last_gear. rewrite fold_left_app. reflexivity.
Qed.

Lemma gears_from_app (gear : Z) (history : list (Call A)) (e : Call A) :
  gears_from gear (history ++ [e]) <->
  gears_from gear history
  /\ CarControls.manual_gear (controls_of e)
     = (if lt (CarControls.throttle (controls_of e)) (of_int 0)
        then (-1)%Z else last_gear gear history).
Proof.
  revert gear.
  induction history as [|e' history IH]; intros gear; cbn.
  - tauto.
  - rewrite IH. unfold last_gear. cbn. tauto.
Qed.

Lemma send_controls_gears (gear : Z) (throttle steering : A) (w : World A Client) :
  gears_kept gear w ->
  gears_kept gear (world_of (send_controls setCarControls throttle steering w)).
Proof.
  intros [Hgears Hcar]. unfold gears_kept.
  rewrite send_controls_run.
  destruct (exceeds _ _ _); [|split; assumption].
  cbv zeta.
  destruct (setCarControls _ _) as [client' [e|]];
    cbn [world_of calls car_controls];
    (split;
     [ apply gears_from_app; split; [assumption|]; cbn; rewrite <- Hcar; reflexivity
     | rewrite last_gear_app; reflexivity ]).
Qed.

Lemma gears_from_values (gear : Z) (history : list (Call A)) :
  gears_from gear history ->
  Forall (fun e => CarControls.manual_gear (controls_of e) = gear
                   \/ CarControls.manual_gear (controls_of e) = (-1)%Z) history.
Proof.
  revert gear.
  induction history as [|e history IH]; intros gear; cbn.
  - constructor.
  - intros [He Hrest].
    assert (Hhere : CarControls.manual_gear (controls_of e) = gear
                    \/ CarControls.manual_gear (controls_of e) = (-1)%Z)
      by (destruct (lt _ _); [right | left]; exact He).
    constructor; [exact Hhere|].
    apply IH in Hrest.
    eapply Forall_impl; [|exact Hrest].
    cbn. intros e' [He' | He']; [|now right].
    rewrite He'. exact Hhere.
Qed.

Lemma gears_from_split (gear : Z) (before after : list (Call A)) (e : Call A) :
  gears_from gear (before ++ e :: after) ->
  CarControls.manual_gear (controls_of e)
  = (if lt (CarControls.throttle (controls_of e)) (of_int 0)
     then (-1)%Z else last_gear gear before)
  /\ gears_from (CarControls.manual_gear (controls_of e)) after.
Proof.
  revert gear.
  induction before as [|e' before IH]; intros gear; cbn.
  - tauto.
  - intros [_ Hrest]. exact (IH _ Hrest).
Qed.

End HistoryFacts.

(** X7. No near-duplicate is ever transmitted by the loop of [main]: in the
    history of calls of [client.setCarControls], the first call differs from
    (0, 0), and every call that follows a delivered one differs from it, by
    more than a threshold in throttle or in steering.  For every number model
    and every connection. *)
Theorem transmitted_commands_are_spaced
  (A : Type) (N : Number A) (Client Exn : Type)
  (setCarControls : Client -> CarControls.t A -> Client * option Exn)
  (client0 : Client) (controls0 : CarControls.t A) (frames : list (Detection A)) :
  let history :=
    calls (world_of (main_loop setCarControls frames
                       (initial_world client0 controls0))) in
  (forall e rest,
      history = e :: rest ->
      exceeds (StatusControls.make (of_int 0) (of_int 0))
              (CarControls.throttle (controls_of e))
              (CarControls.steering (controls_of e)) = true)
  /\ (forall before c e after,
         history = before ++ Delivered c :: e :: after ->
         exceeds (StatusControls.make (CarControls.throttle c) (CarControls.steering c))
                 (CarControls.throttle (controls_of e))
                 (CarControls.steering (controls_of e)) = true).
Proof.
  intros history.
  assert (Hhistory : in_step_and_spaced
                       (world_of (main_loop setCarControls frames
                                    (initial_world client0 controls0)))).
  { apply main_loop_keeps.
    - intros throttle steering w. apply send_controls_spaced.
    - split; [apply initial_world_in_step | exact I]. }
  destruct Hhistory as [_ Hspaced]. fold history in Hspaced.
  split.
  - intros e rest Heq. rewrite Heq in Hspaced. exact (proj1 Hspaced).
  - intros before c e after Heq. rewrite Heq in Hspaced.
    exact (spaced_adjacent _ _ _ _ _ Hspaced).
Qed.

(** A detection at (320, 120), then a frame without contours: the forward
    command 1/2 differs from (0, 0), and the stop differs from it. *)
Lemma transmitted_commands_are_spaced_witness :
  let forward :=
    CarControls.make (fst (coordinates_to_controls (A:=Q) (of_int 320) (of_int 120)))
                     (snd (coordinates_to_controls (A:=Q) (of_int 320) (of_int 120)))
                     false 0 in
  let stop := CarControls.make (A:=Q) (of_int 0) (of_int 0) false 0 in
  exceeds (StatusControls.make (of_int 0) (of_int 0))
          (CarControls.throttle forward) (CarControls.steering forward) = true
  /\ exceeds (StatusControls.make (CarControls.throttle forward)
                                  (CarControls.steering forward))
             (CarControls.throttle stop) (CarControls.steering stop) = true.
Proof.
  intros forward stop.
  pose proof (transmitted_commands_are_spaced Q Number_Q _ _ Simulator.setCarControls
                (Simulator.make true []) Simulator.CarControls0
                [enclosing_circle (of_int 320) (of_int 120) (of_int 20); no_contours])
    as [Hfirst Hnext].
  split.
  - exact (Hfirst (Delivered forward) [Delivered stop] eq_refl).
  - exact (Hnext [] forward (Delivered stop) [] eq_refl).
Defined.

(** X8. The loop of [main] calls [client.setCarControls] at most once per
    iteration and never rewrites what it has sent: after any number of
    iterations the history is the one before, extended by at most as many calls
    as there were iterations. *)
Theorem at_most_one_call_per_iteration
  (A : Type) (N : Number A) (Client Exn : Type)
  (setCarControls : Client -> CarControls.t A -> Client * option Exn)
  (frames : list (Detection A)) (w : World A Client) :
  exists suffix,
    calls (world_of (main_loop setCarControls frames w)) = calls w ++ suffix
    /\ (length suffix <= length frames)%nat.
Proof.
  revert w.
  induction frames as [|found frames IH]; intros w.
  - exists []. cbn. rewrite app_nil_r. split; [reflexivity|lia].
  - destruct (loop_body_extends Client Exn setCarControls found w)
      as [first [Hfirst Hone]].
    cbn [main_loop]. unfold bind.
    destruct (loop_body setCarControls found w) as [[] w'|e w'];
      cbn [world_of] in Hfirst.
    + destruct (IH w') as [more [Hmore Hlen]].
      exists (first ++ more). rewrite Hmore, Hfirst, app_assoc.
      split; [reflexivity|]. rewrite length_app. cbn. lia.
    + exists first. cbn [world_of]. split; [exact Hfirst|]. cbn. lia.
Qed.

(** X9. No retry: a call of [client.setCarControls] that failed is never
    followed by another call.  In the history after any number of iterations
    of the loop of [main], whether the run has returned or not, every call
    that has a successor was delivered; and if the run has returned, every
    call was. *)
Theorem no_call_after_failure
  (A : Type) (N : Number A) (Client Exn : Type)
  (setCarControls : Client -> CarControls.t A -> Client * option Exn)
  (client0 : Client) (controls0 : CarControls.t A) (frames : list (Detection A)) :
  let run := main_loop setCarControls frames (initial_world client0 controls0) in
  (forall before e after,
      calls (world_of run) = before ++ e :: after ->
      after <> [] ->
      is_delivered e = true)
  /\ (forall x w, run = Returns x w -> forallb is_delivered (calls w) = true).
Proof.
  intros run.
  pose proof (main_loop_failed_at_most_last Client Exn setCarControls frames
                (initial_world client0 controls0) eq_refl) as Hrun.
  fold run in Hrun.
  destruct run as [x w|e w]; cbn [failed_at_most_last world_of] in *.
  - split.
    + intros before e after Heq _. rewrite Heq, forallb_app in Hrun.
      cbn in Hrun. apply andb_prop in Hrun. destruct Hrun as [_ Hrest].
      apply andb_prop in Hrest. exact (proj1 Hrest).
    + intros x' w' Heq. injection Heq as _ <-. exact Hrun.
  - split; [|discriminate].
    destruct Hrun as [history [c [Hcalls Hdelivered]]].
    intros before e' after Heq Hafter.
    destruct (exists_last Hafter) as [after' [final Hlast]].
    rewrite Hcalls, Hlast in Heq.
    change (before ++ e' :: after' ++ [final])
      with (before ++ (e' :: after') ++ [final]) in Heq.
    rewrite app_assoc in Heq. apply app_inj_tail in Heq.
    destruct Heq as [Hhistory _].
    rewrite Hhistory, forallb_app in Hdelivered.
    apply andb_prop in Hdelivered. destruct Hdelivered as [_ Hrest].
    cbn in Hrest. apply andb_prop in Hrest. exact (proj1 Hrest).
Qed.

(** A detection at (320, 120), then a frame without contours: the forward
    command has a successor, and was delivered. *)
Lemma no_call_after_failure_witness :
  let forward :=
    CarControls.make (fst (coordinates_to_controls (A:=Q) (of_int 320) (of_int 120)))
                     (snd (coordinates_to_controls (A:=Q) (of_int 320) (of_int 120)))
                     false 0 in
  let stop := CarControls.make (A:=Q) (of_int 0) (of_int 0) false 0 in
  is_delivered (Delivered forward) = true.
Proof.
  intros forward stop.
  refine (proj1 (no_call_after_failure Q Number_Q _ _ Simulator.setCarControls
                   (Simulator.make true []) Simulator.CarControls0
                   [enclosing_circle (of_int 320) (of_int 120) (of_int 20); no_contours])
            [] (Delivered forward) [Delivered stop] eq_refl _).
  discriminate.
Defined.

(** X10. [manual_gear] is assigned -1 on reverse and never assigned again:
    every call carries either the [manual_gear] the car controls started with
    or -1, and every call after a call with negative throttle carries -1, the
    forward ones (sent with [is_manual_gear = False]) included. *)
Theorem manual_gear_is_never_reset
  (A : Type) (N : Number A) (Client Exn : Type)
  (setCarControls : Client -> CarControls.t A -> Client * option Exn)
  (client0 : Client) (controls0 : CarControls.t A) (frames : list (Detection A)) :
  let history :=
    calls (world_of (main_loop setCarControls frames
                       (initial_world client0 controls0))) in
  Forall (fun e => CarControls.manual_gear (controls_of e)
                   = CarControls.manual_gear controls0
                   \/ CarControls.manual_gear (controls_of e) = (-1)%Z) history
  /\ (forall before e after,
         history = before ++ e :: after ->
         (CarControls.throttle (controls_of e) <? of_int 0) = true ->
         Forall (fun e' => CarControls.manual_gear (controls_of e') = (-1)%Z) after).
Proof.
  intros history.
  assert (Hhistory : gears_kept (CarControls.manual_gear controls0)
                       (world_of (main_loop setCarControls frames
                                    (initial_world client0 controls0)))).
  { apply main_loop_keeps.
    - intros throttle steering w. apply send_controls_gears.
    - split; [exact I | reflexivity]. }
  destruct Hhistory as [Hgears _]. fold history in Hgears.
  split.
  - exact (gears_from_values _ _ Hgears).
  - intros before e after Heq Hreverse. rewrite Heq in Hgears.
    apply gears_from_split in Hgears. destruct Hgears as [He Hafter].
    rewrite Hreverse in He. rewrite He in Hafter.
    apply gears_from_values in Hafter.
    eapply Forall_impl; [|exact Hafter].
    cbn. intros e' [He' | He']; exact He'.
Qed.

(** The object below the center (reverse, -1/3), then above it (forward,
    1/2): the forward command still carries [manual_gear = -1]. *)
Lemma manual_gear_is_never_reset_witness :
  let reverse :=
    CarControls.make (fst (coordinates_to_controls (A:=Q) (of_int 320) (of_int 400)))
                     (snd (coordinates_to_controls (A:=Q) (of_int 320) (of_int 400)))
                     true (-1) in
  let forward :=
    CarControls.make (fst (coordinates_to_controls (A:=Q) (of_int 320) (of_int 120)))
                     (snd (coordinates_to_controls (A:=Q) (of_int 320) (of_int 120)))
                     false (-1) in
  Forall (fun e' => CarControls.manual_gear (controls_of e') = (-1)%Z)
         [Delivered forward].
Proof.
  intros reverse forward.
  exact (proj2 (manual_gear_is_never_reset Q Number_Q _ _ Simulator.setCarControls
                  (Simulator.make true []) Simulator.CarControls0
                  [enclosing_circle (of_int 320) (of_int 400) (of_int 20);
                   enclosing_circle (of_int 320) (of_int 120) (of_int 20)])
           [] (Delivered reverse) [Delivered forward] eq_refl eq_refl).
Defined.

(** ** Repeated candidates *)

#[export] Instance RepeatLaw_Q : RepeatLaw Q.
Proof.
  split. intros x. unfold gt. cbn [lt abs sub of_decimal Number_Q].
  apply Qltb_ge.
  assert (Hzero : (x - x == 0)%Q) by ring.
  rewrite Hzero. discriminate.
Qed.

#[export] Instance RepeatLaw_binary64 : RepeatLaw spec_float.
Proof.
  split. intros x. unfold gt. cbn.
  destruct x as [s|s| |s m e]; cbn.
  - destruct s; reflexivity.
  - destruct s; reflexivity.
  - reflexivity.
  - rewrite Z.sub_diag. reflexivity.
Qed.

Section RepeatFacts.

Context {A : Type} `{Number A} {L : RepeatLaw A}.
Variable Client : Type.
Variable Exn : Type.
Variable setCarControls : Client -> CarControls.t A -> Client * option Exn.

(** After a call that returned, the candidate is within both thresholds of
    [status_controls]. *)
Lemma send_controls_close (w w' : World A Client) (throttle steering : A)
      (status : StatusControls.t A) :
  send_controls setCarControls throttle steering w = Returns status w' ->
  exceeds (status_controls w') throttle steering = false.
Proof.
  rewrite send_controls_run.
  destruct (exceeds (status_controls w) throttle steering) eqn:Hexc.
  - cbv zeta. destruct (setCarControls _ _) as [client' [e|]]; [discriminate|].
    intros Heq. injection Heq as _ <-. cbn.
    unfold exceeds. cbn.
    unfold CONTROL_THROTTLE_THRESHOLD, CONTROL_STEERING_THRESHOLD.
    now rewrite !same_is_close.
  - intros Heq. injection Heq as _ <-. exact Hexc.
Qed.

End RepeatFacts.

Lemma exceeds_false_Q (status : StatusControls.t Q) (throttle steering : Q) :
  exceeds status throttle steering = false <->
  (Qabs (StatusControls.throttle status - throttle) <= 1 # 10
   /\ Qabs (StatusControls.steering status - steering) <= 1 # 10)%Q.
Proof.
  unfold exceeds, gt. cbn.
  rewrite orb_false_iff, !Qltb_ge. reflexivity.
Qed.

(** X6. A candidate that is repeated is not transmitted again: after a call
    of [send_controls] that returned, a second call with the same throttle and
    steering changes nothing.  For every number model in which a number is
    within the thresholds of itself: exact arithmetic, and floats, infinities
    and not-a-number included. *)
Theorem repeated_candidate_is_suppressed
  (A : Type) (N : Number A) (L : RepeatLaw A) (Client Exn : Type)
  (setCarControls : Client -> CarControls.t A -> Client * option Exn)
  (w w' : World A Client) (throttle steering : A) (status : StatusControls.t A) :
  send_controls setCarControls throttle steering w = Returns status w' ->
  send_controls setCarControls throttle steering w' = Returns (status_controls w') w'.
Proof.
  intros Hfirst. apply send_controls_suppressed.
  exact (send_controls_close Client Exn setCarControls w w' throttle steering status Hfirst).
Qed.

(** The candidate (0.5, 0) from rest, twice, on floats. *)
Lemma repeated_candidate_is_suppressed_witness :
  let w' := world_of (send_controls Simulator.setCarControls
                        (of_decimal 1 2) (of_int 0) (started spec_float)) in
  send_controls Simulator.setCarControls (of_decimal 1 2) (of_int 0) w'
  = Returns (status_controls w') w'.
Proof.
  intros w'.
  exact (repeated_candidate_is_suppressed spec_float Number_binary64 RepeatLaw_binary64
           _ _ Simulator.setCarControls (started spec_float) w'
           (of_decimal 1 2) (of_int 0)
           (StatusControls.make (of_decimal 1 2) (of_int 0)) eq_refl).
Defined.

Local Close Scope num_scope.
Local Open Scope Q_scope.

(** X5. The last controls sent track the candidate: in exact arithmetic,
    after a call of [send_controls] that returned, [status_controls] is within
    0.1 of the candidate in throttle and in steering. *)
Theorem last_sent_tracks_candidate
  (Client Exn : Type)
  (setCarControls : Client -> CarControls.t Q -> Client * option Exn)
  (w w' : World Q Client) (throttle steering : Q) (status : StatusControls.t Q) :
  send_controls setCarControls throttle steering w = Returns status w' ->
  Qabs (fst (last_sent w') - throttle) <= 1 # 10
  /\ Qabs (snd (last_sent w') - steering) <= 1 # 10.
Proof.
  intros Hcall.
  apply (send_controls_close Client Exn setCarControls) in Hcall.
  apply exceeds_false_Q in Hcall. exact Hcall.
Qed.

(** From the last sent (1/2, 0), the candidate (11/20, 1/20) is suppressed,
    and is within 0.1 of what stays in force. *)
Lemma last_sent_tracks_candidate_witness :
  let w := world_of (send_controls Simulator.setCarControls (1 # 2) 0 (started Q)) in
  Qabs (fst (last_sent w) - (11 # 20)) <= 1 # 10
  /\ Qabs (snd (last_sent w) - (1 # 20)) <= 1 # 10.
Proof.
  intros w.
  exact (last_sent_tracks_candidate _ _ Simulator.setCarControls w w
           (11 # 20) (1 # 20) (status_controls w) eq_refl).
Defined.

(** X11. The stop of a frame without contours goes through the same
    hysteresis as any command.  In exact arithmetic, after an iteration
    without contours the last controls sent are within 0.1 of zero on both
    axes; but they need not be zero: a car last sent a throttle of at most 0.1
    is not sent the stop and keeps that throttle, as after detections at
    (320, 192) and (320, 221). *)
Theorem stop_can_be_suppressed :
  (forall (Client Exn : Type)
          (setCarControls : Client -> CarControls.t Q -> Client * option Exn)
          (w w' : World Q Client),
      loop_body setCarControls no_contours w = Returns tt w' ->
      Qabs (fst (last_sent w')) <= 1 # 10 /\ Qabs (snd (last_sent w')) <= 1 # 10)
  /\ (let creeping :=
        world_of (main_loop Simulator.setCarControls
                    [enclosing_circle (of_int 320) (of_int 192) (of_int 20);
                     enclosing_circle (of_int 320) (of_int 221) (of_int 20)]
                    (started Q)) in
      length (calls creeping) = 2%nat
      /\ fst (last_sent creeping) == 19 # 240
      /\ loop_body Simulator.setCarControls no_contours creeping = Returns tt creeping).
Proof.
  split.
  - intros Client Exn setCarControls w w' Hbody.
    unfold loop_body, bind in Hbody.
    destruct (send_controls setCarControls (of_int 0) (of_int 0) w)
      as [status w1|e w1] eqn:Hcall; [|discriminate].
    injection Hbody as <-.
    apply (send_controls_close Client Exn setCarControls) in Hcall.
    apply exceeds_false_Q in Hcall. destruct Hcall as [Ht Hs].
    change (@of_int Q Number_Q 0) with 0 in Ht, Hs.
    unfold last_sent. cbn [fst snd].
    rewrite Qabs_Qle_condition in Ht, Hs. rewrite !Qabs_Qle_condition. lra.
  - repeat split.
Qed.

(** A car at rest and a frame without contours. *)
Lemma stop_can_be_suppressed_witness :
  Qabs (fst (last_sent (started Q))) <= 1 # 10
  /\ Qabs (snd (last_sent (started Q))) <= 1 # 10.
Proof.
  exact (proj1 stop_can_be_suppressed _ _ Simulator.setCarControls
           (started Q) (started Q) eq_refl).
Defined.

(** ** More on the control mapper, in exact arithmetic *)

(** X1. Throttle sign convention ("up makes the car go forward, down goes
    backwards"): whatever [x], an object above the vertical center gives a
    positive throttle, one below it a negative throttle, and one on it the
    throttle zero. *)
Theorem throttle_sign_convention (x y : Q) :
  (y < DIM_Y / 2 -> 0 < fst (coordinates_to_controls x y))
  /\ (DIM_Y / 2 < y -> fst (coordinates_to_controls x y) < 0)
  /\ (y == DIM_Y / 2 -> fst (coordinates_to_controls x y) == 0).
Proof.
  mapper_Q. repeat split; intros Hy; split_tests; lra.
Qed.

(** Rows 100 and 400, and the center row. *)
Lemma throttle_sign_convention_witness :
  0 < fst (coordinates_to_controls 7 100)
  /\ fst (coordinates_to_controls 7 400) < 0
  /\ fst (coordinates_to_controls 7 (DIM_Y / 2)) == 0.
Proof.
  split; [|split].
  - apply (proj1 (throttle_sign_convention 7 100)). reflexivity.
  - apply (proj1 (proj2 (throttle_sign_convention 7 400))). reflexivity.
  - apply (proj2 (proj2 (throttle_sign_convention 7 (DIM_Y / 2)))). reflexivity.
Defined.

(** X2. The mapper is monotone in each coordinate, across the center as
    well: moving the object down never raises the throttle, and moving it to
    the right never raises the steering. *)
Theorem mapper_is_antitone (x x' y y' : Q) :
  (y <= y' ->
   fst (coordinates_to_controls x' y') <= fst (coordinates_to_controls x y))
  /\ (x <= x' ->
      snd (coordinates_to_controls x' y') <= snd (coordinates_to_controls x y)).
Proof.
  mapper_Q. split; intros Hle; split_tests; lra.
Qed.

(** From row 200 above the center to row 300 below it, and from column 100
    to column 500. *)
Lemma mapper_is_antitone_witness :
  fst (coordinates_to_controls 500 300) <= fst (coordinates_to_controls 100 200)
  /\ snd (coordinates_to_controls 500 300) <= snd (coordinates_to_controls 100 200).
Proof.
  split.
  - apply (proj1 (mapper_is_antitone 100 500 200 300)). discriminate.
  - apply (proj2 (mapper_is_antitone 100 500 200 300)). discriminate.
Defined.

(** X3. The mapper does not clamp: a point one pixel or more outside the
    frame gives a control outside the range of the points of the frame.  Above
    the frame ([y <= -1]) the throttle exceeds 1, below it ([y >= DIM_Y + 1])
    it is less than -1/2; left of the frame ([x <= -1]) the steering exceeds
    1/2, right of it ([x >= DIM_X + 1]) it is less than -1/2. *)
Theorem out_of_frame_out_of_range (x y : Q) :
  let r := coordinates_to_controls x y in
  (y <= - (1) -> 1 < fst r)
  /\ (DIM_Y + 1 <= y -> fst r < - (1 # 2))
  /\ (x <= - (1) -> 1 # 2 < snd r)
  /\ (DIM_X + 1 <= x -> snd r < - (1 # 2)).
Proof.
  cbv zeta. mapper_Q. repeat split; split_tests; intros Hout; lra.
Qed.

(** One pixel outside the frame on each side. *)
Lemma out_of_frame_out_of_range_witness :
  (1 < fst (coordinates_to_controls 0 (- (1)))
   /\ 1 # 2 < snd (coordinates_to_controls (- (1)) 0))
  /\ (fst (coordinates_to_controls 0 481) < - (1 # 2)
      /\ snd (coordinates_to_controls 641 0) < - (1 # 2)).
Proof.
  pose proof (out_of_frame_out_of_range (- (1)) (- (1))) as [Hup [_ [Hleft _]]].
  pose proof (out_of_frame_out_of_range 641 481) as [_ [Hdown [_ Hright]]].
  exact (conj (conj (Hup ltac:(discriminate)) (Hleft ltac:(discriminate)))
              (conj (Hdown ltac:(discriminate)) (Hright ltac:(discriminate)))).
Defined.

(** ** The mapper and the command gate together *)

Lemma bind_ret_calls {A : Type} {Client Exn X : Type}
      (m : M A Client Exn X) (w : World A Client) :
  calls (world_of (bind m (fun _ => ret Exn tt) w)) = calls (world_of (m w)).
Proof.
  unfold bind, ret. destruct (m w); reflexivity.
Qed.

(** X4. "Centered object: no movement".  In exact arithmetic, with the car at
    rest (last sent controls of value zero), a significative detection is
    transmitted if and only if its center lies outside the box
    [256 <= x <= 384], [216 <= y <= 288] around the center of the frame: 64
    pixels to either side, 24 pixels up and 48 pixels down. *)
Theorem centered_object_no_movement
  (Client Exn : Type)
  (setCarControls : Client -> CarControls.t Q -> Client * option Exn)
  (w : World Q Client) (x y radius : Q) :
  StatusControls.throttle (status_controls w) == 0 ->
  StatusControls.steering (status_controls w) == 0 ->
  THRESHOLD_CONTOUR < radius ->
  (calls (world_of (loop_body setCarControls (enclosing_circle x y radius) w))
   = calls w
   <-> (256 <= x <= 384 /\ 216 <= y <= 288)).
Proof.
  intros Ht Hs Hradius.
  apply Qltb_lt in Hradius.
  unfold loop_body, gt. cbn [lt Number_Q]. rewrite Hradius.
  destruct (coordinates_to_controls x y) as [throttle steering] eqn:Hmap.
  rewrite bind_ret_calls, send_controls_calls.
  assert (Hbox : exceeds (status_controls w) throttle steering = false
                 <-> (256 <= x <= 384 /\ 216 <= y <= 288)).
  { rewrite exceeds_false_Q, !Qabs_Qle_condition.
    assert (Hthrottle : throttle = fst (coordinates_to_controls x y))
      by now rewrite Hmap.
    assert (Hsteering : steering = snd (coordinates_to_controls x y))
      by now rewrite Hmap.
    rewrite Hthrottle, Hsteering. clear Hmap Hthrottle Hsteering.
    mapper_Q.
    split_tests; split; intros Hin; repeat split; lra. }
  destruct (exceeds (status_controls w) throttle steering).
  - split.
    + intros Heq. now apply app_one_neq in Heq.
    + intros Hin. apply Hbox in Hin. discriminate.
  - split; [|reflexivity]. intros _. now apply Hbox.
Qed.

(** At rest, a detection at the very center sends nothing. *)
Lemma centered_object_no_movement_witness :
  calls (world_of (loop_body Simulator.setCarControls
                     (enclosing_circle 320 240 20) (started Q)))
  = calls (started Q)
  <-> (256 <= 320 <= 384 /\ 216 <= 240 <= 288).
Proof.
  apply (centered_object_no_movement _ _ Simulator.setCarControls
           (started Q) 320 240 20); reflexivity.
Defined.

(** ** The exit key and the loop as [main] runs it *)

Local Close Scope Q_scope.

(** X12. The exit test looks at the low byte of the key code only: the loop
    breaks exactly on the codes that are 120 (the letter x) modulo 256,
    whatever modifier bits the window system sets above it.  The code -1 that
    [cv2.waitKey] returns when no key was pressed does not break the loop, and
    neither does the capital X. *)
Theorem exit_on_low_byte_x :
  (forall key : Z, exit_requested key = true <-> (key mod 256 = 120)%Z)
  /\ exit_requested (-1) = false
  /\ exit_requested (ord "X"%char) = false.
Proof.
  split; [|split; reflexivity].
  intros key. unfold exit_requested.
  change 255%Z with (Z.ones 8).
  rewrite Z.land_ones by lia.
  change (2 ^ 8)%Z with 256%Z. change (ord EXIT_KEY) with 120%Z.
  apply Z.eqb_eq.
Qed.

Section MainRunFacts.

Context {A : Type} `{Number A}.
Variable Client : Type.
Variable Exn : Type.
Variable setCarControls : Client -> CarControls.t A -> Client * option Exn.

Lemma main_run_no_exit (inputs : list (Detection A * Z)) (w : World A Client) :
  Forall (fun input => exit_requested (snd input) = false) inputs ->
  main_run setCarControls inputs w
  = bind (main_loop setCarControls (map fst inputs)) (fun _ => ret Exn Looping) w.
Proof.
  revert w.
  induction inputs as [|[found key] rest IH]; intros w Hkeys.
  - reflexivity.
  - inversion Hkeys as [|? ? Hkey Hrest]; subst. cbn in Hkey.
    cbn [main_run map fst main_loop]. rewrite Hkey. unfold bind at 1 2 3.
    destruct (loop_body setCarControls found w) as [[] w'|e w']; [|reflexivity].
    rewrite (IH w' Hrest). reflexivity.
Qed.

Lemma main_run_exit (before after : list (Detection A * Z))
      (found : Detection A) (key : Z) (w : World A Client) :
  Forall (fun input => exit_requested (snd input) = false) before ->
  exit_requested key = true ->
  main_run setCarControls (before ++ (found, key) :: after) w
  = bind (main_loop setCarControls (map fst before ++ [found]))
         (fun _ => ret Exn Exited) w.
Proof.
  revert w.
  induction before as [|[found' key'] rest IH]; intros w Hkeys Hexit.
  - cbn [app main_run map main_loop]. rewrite Hexit. unfold bind.
    destruct (loop_body setCarControls found w) as [[] w'|e w']; reflexivity.
  - inversion Hkeys as [|? ? Hkey Hrest]; subst. cbn in Hkey.
    cbn [app main_run map fst main_loop]. rewrite Hkey. unfold bind at 1 2 3.
    destruct (loop_body setCarControls found' w) as [[] w'|e w']; [|reflexivity].
    rewrite (IH w' Hrest Hexit). reflexivity.
Qed.

End MainRunFacts.

(** X13. The exit key is tested at the end of an iteration.  As long as no
    exit key is seen, the loop of [main] runs the control code on every frame
    and goes on; at the first exit key it has still run the control code on
    the frame of that iteration, and it looks at nothing that comes after:
    later frames and keys have no effect, and no further command (no stop
    either) is sent. *)
Theorem exit_key_ends_the_loop
  (A : Type) (N : Number A) (Client Exn : Type)
  (setCarControls : Client -> CarControls.t A -> Client * option Exn)
  (w : World A Client) :
  (forall inputs,
      Forall (fun input => exit_requested (snd input) = false) inputs ->
      main_run setCarControls inputs w
      = bind (main_loop setCarControls (map fst inputs))
             (fun _ => ret Exn Looping) w)
  /\ (forall before found key after,
         Forall (fun input => exit_requested (snd input) = false) before ->
         exit_requested key = true ->
         main_run setCarControls (before ++ (found, key) :: after) w
         = bind (main_loop setCarControls (map fst before ++ [found]))
                (fun _ => ret Exn Exited) w).
Proof.
  split.
  - intros inputs. apply main_run_no_exit.
  - intros before found key after. apply main_run_exit.
Qed.

(** A detection with no key, then a frame without contours with the key x
    (with a modifier bit), then a detection that is never looked at. *)
Lemma exit_key_ends_the_loop_witness :
  main_run Simulator.setCarControls
    ([(enclosing_circle (of_int 320) (of_int 120) (of_int 20), (-1)%Z)]
       ++ (no_contours, 1048696%Z)
       :: [(enclosing_circle (of_int 320) (of_int 400) (of_int 20), (-1)%Z)])
    (started Q)
  = bind (main_loop Simulator.setCarControls
            (map fst [(enclosing_circle (of_int 320) (of_int 120) (of_int 20), (-1)%Z)]
               ++ [no_contours]))
         (fun _ => ret Simulator.error Exited) (started Q).
Proof.
  apply (proj2 (exit_key_ends_the_loop Q Number_Q _ _ Simulator.setCarControls
                  (started Q))).
  - repeat constructor.
  - reflexivity.
Defined.

(** ** Directions *)

Local Open Scope Q_scope.

(** X16. The gear follows the side of the center the object is on.  In exact
    arithmetic, a command transmitted for a detection selects the manual
    reverse gear if and only if the object is below the vertical center, and
    carries the throttle and steering the mapper computes. *)
Theorem reverse_gear_below_center
  (Client Exn : Type)
  (setCarControls : Client -> CarControls.t Q -> Client * option Exn)
  (w : World Q Client) (x y radius : Q) (e : Call Q) :
  calls (world_of (loop_body setCarControls (enclosing_circle x y radius) w))
  = calls w ++ [e] ->
  (CarControls.is_manual_gear (controls_of e) = true <-> DIM_Y / 2 < y)
  /\ (CarControls.throttle (controls_of e), CarControls.steering (controls_of e))
     = coordinates_to_controls x y.
Proof.
  unfold loop_body.
  destruct (gt radius THRESHOLD_CONTOUR).
  - destruct (coordinates_to_controls x y) as [throttle steering] eqn:Hmap.
    rewrite bind_ret_calls, send_controls_calls.
    destruct (exceeds _ _ _).
    + intros Heq. apply app_inv_head in Heq. injection Heq as <-.
      assert (Hgear : CarControls.is_manual_gear
                        (controls_of
                           (match snd (setCarControls (client w)
                                         (command (car_controls w) throttle steering)) with
                            | Some _ => Failed (command (car_controls w) throttle steering)
                            | None => Delivered (command (car_controls w) throttle steering)
                            end))
                      = Qltb throttle 0)
        by (destruct (snd _); reflexivity).
      split.
      * rewrite Hgear, Qltb_lt.
        assert (Hthrottle : throttle = fst (coordinates_to_controls x y))
          by now rewrite Hmap.
        rewrite Hthrottle. clear.
        mapper_Q. split_tests; split; intros; lra.
      * destruct (snd _); reflexivity.
    + intros Heq. symmetry in Heq. now apply app_one_neq in Heq.
  - cbn. intros Heq. symmetry in Heq. now apply app_one_neq in Heq.
Qed.

(** The object at row 400, below the center, seen from rest. *)
Lemma reverse_gear_below_center_witness :
  let c := CarControls.make (fst (coordinates_to_controls (A:=Q) 320 400))
                            (snd (coordinates_to_controls (A:=Q) 320 400))
                            true (-1) in
  (CarControls.is_manual_gear c = true <-> DIM_Y / 2 < 400)
  /\ (CarControls.throttle c, CarControls.steering c) = coordinates_to_controls 320 400.
Proof.
  intros c.
  exact (reverse_gear_below_center _ _ Simulator.setCarControls (started Q)
           320 400 20 (Delivered c) eq_refl).
Defined.

Local Close Scope Q_scope.
Local Open Scope num_scope.

Section Binary64Directions.

Let prec := Binary64.prec.
Let emax := Binary64.emax.

Lemma binary_round_aux_negative (s z : bool) (m e : Z) (l : location) :
  SFltb (binary_round_aux prec emax s m e l) (S754_zero z) = true -> s = true.
Proof.
  unfold binary_round_aux.
  destruct (shr_fexp prec emax m e l) as [mrs' e'].
  destruct (shr_fexp prec emax _ e' loc_Exact) as [mrs'' e''].
  destruct (shr_m mrs''); [discriminate| |discriminate].
  destruct (Z.leb _ _), s; cbn; congruence.
Qed.

(** A quotient by a positive float is negative only if the dividend is. *)
Lemma SFdiv_negative (a : spec_float) (z : bool) (mc : positive) (ec : Z) :
  SFltb (SFdiv prec emax a (S754_finite false mc ec)) (S754_zero z) = true ->
  SFltb a (S754_zero z) = true.
Proof.
  destruct a as [sa|sa| |sa ma ea]; cbn; try discriminate.
  - now destruct sa.
  - destruct (SFdiv_core_binary prec emax (Z.pos ma) ea (Z.pos mc) ec) as [[mz ez] lz].
    intros Hneg. apply binary_round_aux_negative in Hneg.
    destruct sa; [reflexivity|discriminate].
Qed.

(** A product of two positive floats is not negative. *)
Lemma SFmul_positive_not_negative (a b : spec_float) (z z' : bool) :
  SFltb (S754_zero z) a = true ->
  SFltb (S754_zero z) b = true ->
  SFltb (SFmul prec emax a b) (S754_zero z') = false.
Proof.
  destruct a as [sa|sa| |sa ma ea]; cbn; try discriminate;
    destruct b as [sb|sb| |sb mb eb]; cbn; try discriminate;
    destruct sa, sb; cbn; try discriminate; try reflexivity.
  intros _ _.
  destruct (SFltb (binary_round_aux prec emax false (Z.pos (ma * mb)) (ea + eb) loc_Exact)
                  (S754_zero z')) eqn:E; [|reflexivity].
  apply binary_round_aux_negative in E. discriminate.
Qed.

Lemma SFltb_zero_opp (a : spec_float) (z z' : bool) :
  SFltb (S754_zero z) (SFopp a) = SFltb a (S754_zero z').
Proof. destruct a as [[]|[]| |[] ? ?]; reflexivity. Qed.

Lemma SFltb_opp_zero (a : spec_float) (z z' : bool) :
  SFltb (SFopp a) (S754_zero z) = SFltb (S754_zero z') a.
Proof. destruct a as [[]|[]| |[] ? ?]; reflexivity. Qed.

(** The sign of a raw control, before the forward scaling. *)
Lemma raw_control_positive (o : spec_float) (mc : positive) (ec : Z) :
  SFltb (S754_zero false) (SFdiv prec emax (SFopp o) (S754_finite false mc ec)) = true ->
  SFltb o (S754_zero false) = true.
Proof.
  intros Hpos. apply SFdiv_positive in Hpos.
  now rewrite (SFltb_zero_opp o false false) in Hpos.
Qed.

Lemma raw_control_negative (o : spec_float) (mc : positive) (ec : Z) :
  SFltb (SFdiv prec emax (SFopp o) (S754_finite false mc ec)) (S754_zero false) = true ->
  SFltb (S754_zero false) o = true.
Proof.
  intros Hneg. apply SFdiv_negative in Hneg.
  now rewrite (SFltb_opp_zero o false false) in Hneg.
Qed.

End Binary64Directions.

(** X15. Rounding never flips a direction.  On floats, for all arguments
    (infinities and not-a-number included), the mapper returns a positive
    throttle only if the offset [y - DIM_Y/2] it computes is negative and a
    negative throttle only if that offset is positive; likewise a positive
    steering only if [x - DIM_X/2] is negative and a negative steering only if
    it is positive. *)
Theorem directions_survive_rounding (x y : spec_float) :
  let throttle := fst (coordinates_to_controls x y) in
  let steering := snd (coordinates_to_controls x y) in
  ((of_int 0 <? throttle) = true -> (y - DIM_Y / of_int 2 <? of_int 0) = true)
  /\ ((throttle <? of_int 0) = true -> (of_int 0 <? y - DIM_Y / of_int 2) = true)
  /\ ((of_int 0 <? steering) = true -> (x - DIM_X / of_int 2 <? of_int 0) = true)
  /\ ((steering <? of_int 0) = true -> (of_int 0 <? x - DIM_X / of_int 2) = true).
Proof.
  unfold coordinates_to_controls, gt. cbn [fst snd].
  set (oy := y - DIM_Y / of_int 2).
  set (ox := x - DIM_X / of_int 2).
  cbn [neg sub mul div lt Number_binary64].
  set (raw := SFdiv Binary64.prec Binary64.emax (SFopp oy) DIM_Y).
  repeat split.
  - destruct (SFltb (of_int 0) raw) eqn:Hraw.
    + intros _. exact (raw_control_positive oy _ _ Hraw).
    + intros Hpos. change (SFltb (of_int 0) raw = true) in Hpos. congruence.
  - destruct (SFltb (of_int 0) raw) eqn:Hraw.
    + intros Hneg.
      assert (Hratio : SFltb (S754_zero false) (@FORWARD_RATIO spec_float _) = true)
        by reflexivity.
      pose proof (SFmul_positive_not_negative FORWARD_RATIO raw false false
                    Hratio Hraw) as Hnot.
      change (SFltb (SFmul Binary64.prec Binary64.emax FORWARD_RATIO raw)
                    (S754_zero false) = true) in Hneg.
      congruence.
    + intros Hneg. exact (raw_control_negative oy _ _ Hneg).
  - intros Hpos. exact (raw_control_positive ox _ _ Hpos).
  - intros Hneg. exact (raw_control_negative ox _ _ Hneg).
Qed.

(** Row 120 and column 100, then row 400 and column 500, on floats. *)
Lemma directions_survive_rounding_witness :
  ((of_int 120 - DIM_Y / of_int 2 <? of_int 0) = true
   /\ (of_int 100 - DIM_X / of_int 2 <? of_int 0) = true)
  /\ ((of_int 0 <? of_int 400 - DIM_Y / of_int 2) = true
      /\ (of_int 0 <? of_int 500 - DIM_X / of_int 2) = true).
Proof.
  pose proof (directions_survive_rounding (of_int 100) (of_int 120))
    as [Hup [_ [Hleft _]]].
  pose proof (directions_survive_rounding (of_int 500) (of_int 400))
    as [_ [Hdown [_ Hright]]].
  exact (conj (conj (Hup eq_refl) (Hleft eq_refl))
              (conj (Hdown eq_refl) (Hright eq_refl))).
Defined.

(** The same on floats, on the thousand integer pixels next to the frame on
    each side, and on the largest floats and the infinities. *)
Lemma out_of_frame_binary64_samples :
  let far : list spec_float :=
    map (fun k => of_int (1 + k)) (pixels 999)
    ++ [S754_finite false 9007199254740991 971; S754_infinity false] in
  forallb (fun k : spec_float =>
             (of_int 1 <? fst (coordinates_to_controls (of_int 0) (- k)))
             && (fst (coordinates_to_controls (of_int 0)
                        (SFadd Binary64.prec Binary64.emax DIM_Y k))
                 <? - of_decimal 1 2)
             && (of_decimal 1 2 <? snd (coordinates_to_controls (- k) (of_int 0)))
             && (snd (coordinates_to_controls
                        (SFadd Binary64.prec Binary64.emax DIM_X k) (of_int 0))
                 <? - of_decimal 1 2))
          far = true.
Proof. vm_compute. reflexivity. Qed.
